(** * ConceptPulse: revision scheduling and mastery progression

    A shallow embedding of the server routes of the learning app
    (the Hono server, [POST /diagnostic/submit], [GET /revisions],
    [POST /revisions/complete] and the helper [calculateMasteryLevel])
    together with the part of the JavaScript runtime these routes rely on:
    dynamically typed values, the coercions behind [||], [===], [<] and [>=],
    template literals, [Date] arithmetic and [toISOString].

    Layout: the runtime model ([JS], [JSDate]), the key-value collaborator
    ([KV]), the routes ([Server]), the definitions that follow the wording
    of the specification ([Spec]), the other routes of the server
    ([OtherRoutes]: accounts, the listing routes, the generation of a
    diagnostic and the dashboard), then the lemmas and the theorems: first
    the properties of the specification, then further properties of the
    server. *)

From Stdlib Require Import ZArith QArith Qreduction Qround Qabs String Ascii List Bool Lia.
From stdpp Require Import base option gmap strings list fin_maps pretty.

#[local] Set Warnings "-register-all".
#[local] Open Scope Z_scope.

(* ===================================================================== *)
(** ** JavaScript values and coercions *)
(* ===================================================================== *)

Module JS.

(** A JavaScript number. A finite double is modelled by the rational that
    it denotes; division and multiplication round their exact result to
    the nearest double ([round64] below). There is no negative zero. *)
Inductive jsnum :=
| NaN
| Inf (positive : bool)
| Fin (q : Q).

(** A JSON-like value, as it travels in request bodies and in the
    key-value store. Objects are finite maps from property names. *)
Inductive jsval :=
| VUndef
| VNull
| VBool (b : bool)
| VNum (n : jsnum)
| VStr (s : string)
| VArr (l : list jsval)
| VObj (o : gmap string jsval).

Abbreviation obj := (gmap string jsval).

(** The coercions of the runtime that the model leaves open: the numeric
    value of a non-empty string, the decimal rendering of a number that is
    not a small integer, and the local time zone. [LocalTZA t isUTC] is
    the offset of the zone in milliseconds, as in ECMAScript: at the time
    value [t] when [isUTC] holds, at the local time [t] otherwise. It
    depends on [t]: a zone with daylight saving has two offsets. *)
Class Runtime := {
  StringToNumber_nonempty : string -> jsnum;
  NumberToString_other : Q -> string;
  LocalTZA : Z -> bool -> Z
}.

Definition of_Z (z : Z) : jsnum := Fin (inject_Z z).

Definition Qlt_bool (p q : Q) : bool := negb (Qle_bool q p).

Definition Qsign_pos (q : Q) : bool := Qlt_bool 0 q.

(** [2^e] for an integer [e] of either sign. *)
Definition pow2 (e : Z) : Q := Qmake (2 ^ Z.max e 0) (Z.to_pos (2 ^ Z.max (- e) 0)).

(** The integer part of the binary logarithm of a positive rational. *)
Definition Qlog2 (q : Q) : Z :=
  let k := Z.log2 (Qnum q) - Z.log2 (Zpos (Qden q)) in
  if Qle_bool (pow2 k) q then k else k - 1.

(** The nearest integer, a tie going to the even one. *)
Definition roundEven (x : Q) : Z :=
  let f := Qfloor x in
  match (x - inject_Z f ?= 1 # 2)%Q with
  | Lt => f
  | Gt => f + 1
  | Eq => if Z.even f then f else f + 1
  end.

(** The double nearest to a rational, a tie going to the even
    significand (roundTiesToEven of IEEE 754 binary64): 53 significant
    bits, the last of them worth at least [2^-1074], and infinity when
    the rounded magnitude reaches [2^1024]. *)
Definition round64 (q : Q) : jsnum :=
  let q := Qred q in
  let a := Qabs q in
  if Qeq_bool q 0 then Fin 0
  else
    let e := Z.max (Qlog2 a - 52) (-1074) in
    let v := (inject_Z (roundEven (a / pow2 e)) * pow2 e)%Q in
    if Qle_bool (pow2 1024) v then Inf (Qsign_pos q)
    else Fin (Qred (if Qsign_pos q then v else - v)).

(** [a < b] on numbers; any comparison with NaN is false. *)
Definition num_lt (a b : jsnum) : bool :=
  match a, b with
  | NaN, _ | _, NaN => false
  | Inf true, _ => false
  | Inf false, Inf false => false
  | Inf false, _ => true
  | Fin _, Inf s => s
  | Fin p, Fin q => Qlt_bool p q
  end.

(** [a >= b] on numbers: the negation of [a < b] unless an operand is NaN. *)
Definition num_ge (a b : jsnum) : bool :=
  match a, b with
  | NaN, _ | _, NaN => false
  | _, _ => negb (num_lt a b)
  end.

(** [a === b] on numbers. *)
Definition num_eq (a b : jsnum) : bool :=
  match a, b with
  | Inf s, Inf s' => Bool.eqb s s'
  | Fin p, Fin q => Qeq_bool p q
  | _, _ => false
  end.

(** [a / b]. *)
Definition num_div (a b : jsnum) : jsnum :=
  match a, b with
  | NaN, _ | _, NaN => NaN
  | Inf _, Inf _ => NaN
  | Inf s, Fin q => Inf (if Qlt_bool q 0 then negb s else s)
  | Fin _, Inf _ => Fin 0
  | Fin p, Fin q =>
      if Qeq_bool q 0 then
        if Qeq_bool p 0 then NaN else Inf (Qsign_pos p)
      else round64 (p / q)
  end.

(** [a * b]. *)
Definition num_mul (a b : jsnum) : jsnum :=
  match a, b with
  | NaN, _ | _, NaN => NaN
  | Inf s, Inf s' => Inf (Bool.eqb s s')
  | Inf s, Fin q | Fin q, Inf s =>
      if Qeq_bool q 0 then NaN else Inf (Bool.eqb s (Qsign_pos q))
  | Fin p, Fin q => round64 (p * q)
  end.

(** ToBoolean. *)
Definition truthy (v : jsval) : bool :=
  match v with
  | VUndef | VNull => false
  | VBool b => b
  | VNum NaN => false
  | VNum (Inf _) => true
  | VNum (Fin q) => negb (Qeq_bool q 0)
  | VStr s => negb (String.eqb s "")
  | VArr _ | VObj _ => true
  end.

(** [a || b]. *)
Definition js_or (a b : jsval) : jsval := if truthy a then a else b.

(** [a ?? b]. *)
Definition js_nullish (a b : jsval) : jsval :=
  match a with
  | VUndef | VNull => b
  | _ => a
  end.

(** [a === b]. Arrays and objects compare by identity; the operands met
    in the routes come from separately parsed documents, so two of them
    are never the same object. *)
Definition strict_eq (a b : jsval) : bool :=
  match a, b with
  | VUndef, VUndef | VNull, VNull => true
  | VBool x, VBool y => Bool.eqb x y
  | VNum x, VNum y => num_eq x y
  | VStr x, VStr y => String.eqb x y
  | _, _ => false
  end.

(** Number to string: the decimal digits for an integer below 10^21. *)
Definition NumberToString {rt : Runtime} (n : jsnum) : string :=
  match n with
  | NaN => "NaN"
  | Inf true => "Infinity"
  | Inf false => "-Infinity"
  | Fin q =>
      let r := Qred q in
      if (Zpos (Qden r) =? 1) && (Z.abs (Qnum r) <? 10 ^ 21)
      then pretty (Qnum r)
      else NumberToString_other q
  end.

(** ToString, as applied by a template literal. *)
Fixpoint ToString {rt : Runtime} (v : jsval) : string :=
  match v with
  | VUndef => "undefined"
  | VNull => "null"
  | VBool true => "true"
  | VBool false => "false"
  | VNum n => NumberToString n
  | VStr s => s
  | VArr l =>
      (fix join (l : list jsval) : string :=
         match l with
         | [] => ""
         | x :: r =>
             let sx := match x with
                       | VUndef | VNull => ""
                       | _ => ToString x
                       end in
             match r with
             | [] => sx
             | _ => sx +:+ "," +:+ join r
             end
         end) l
  | VObj _ => "[object Object]"
  end.

Definition StringToNumber {rt : Runtime} (s : string) : jsnum :=
  if String.eqb s "" then Fin 0 else StringToNumber_nonempty s.

(** ToNumber. Arrays and objects go through their string rendering. *)
Definition ToNumber {rt : Runtime} (v : jsval) : jsnum :=
  match v with
  | VUndef => NaN
  | VNull => Fin 0
  | VBool true => Fin 1
  | VBool false => Fin 0
  | VNum n => n
  | VStr s => StringToNumber s
  | VArr _ | VObj _ => StringToNumber (ToString v)
  end.

(** [v < c] and [v >= c] against a numeric literal [c]. *)
Definition js_lt {rt : Runtime} (v : jsval) (c : Z) : bool := num_lt (ToNumber v) (of_Z c).
Definition js_ge {rt : Runtime} (v : jsval) (c : Z) : bool := num_ge (ToNumber v) (of_Z c).

(** [o.k] on an object: a missing property reads as [undefined]. *)
Definition prop (o : obj) (k : string) : jsval := default VUndef (o !! k).

(** [v.k] on any value, for a property name [k] that no built-in
    prototype defines: [None] is the TypeError raised on [undefined] and
    [null]. *)
Definition member (v : jsval) (k : string) : option jsval :=
  match v with
  | VUndef | VNull => None
  | VObj o => Some (prop o k)
  | _ => Some VUndef
  end.

(** [v[i]] for an index [i]: an element of an array, a one-character
    string of a string, a property of an object. *)
Definition index (v : jsval) (i : nat) : option jsval :=
  match v with
  | VUndef | VNull => None
  | VArr l => Some (default VUndef (l !! i))
  | VStr s => Some (match String.get i s with
                    | Some c => VStr (String c EmptyString)
                    | None => VUndef
                    end)
  | VObj o => Some (prop o (pretty i))
  | _ => Some VUndef
  end.

(** [a <= b] on strings: lexicographic on code units. *)
Fixpoint str_le (a b : string) : bool :=
  match a, b with
  | EmptyString, _ => true
  | String _ _, EmptyString => false
  | String x a', String y b' =>
      let cx := nat_of_ascii x in
      let cy := nat_of_ascii y in
      if (cx <? cy)%nat then true
      else if (cy <? cx)%nat then false
      else str_le a' b'
  end.

(** [s.split(sep)[0]] for a one-character separator. *)
Fixpoint split0 (sep : ascii) (s : string) : string :=
  match s with
  | EmptyString => EmptyString
  | String c r => if Ascii.eqb c sep then EmptyString else String c (split0 sep r)
  end.

(** [s.startsWith(p)]. *)
Definition startsWith (s p : string) : bool := String.prefix p s.

End JS.

(* ===================================================================== *)
(** ** Dates: time values, the civil calendar, [setDate], [toISOString] *)
(* ===================================================================== *)

Module JSDate.
Import JS.

(** A [Date] holds a time value: milliseconds since 1970-01-01T00:00Z.
    Clock readings are taken well inside the range of valid dates, so the
    clipping of out-of-range time values is not modelled. *)
Definition msPerDay : Z := 86400000.

Definition Day (t : Z) : Z := t / msPerDay.
Definition TimeWithinDay (t : Z) : Z := t mod msPerDay.

(** The civil date (year, month 1..12, day of month) of a day number in
    the proleptic Gregorian calendar: what ECMAScript's YearFromTime,
    MonthFromTime and DateFromTime compute, in closed form. Years are
    counted from 1 March in cycles of 400 years (146097 days). *)
Definition civil_from_days (z : Z) : Z * Z * Z :=
  let z := z + 719468 in
  let era := z / 146097 in
  let doe := z mod 146097 in
  let yoe := (doe - doe / 1460 + doe / 36524 - doe / 146096) / 365 in
  let doy := doe - (365 * yoe + yoe / 4 - yoe / 100) in
  let mp := (5 * doy + 2) / 153 in
  let d := doy - (153 * mp + 2) / 5 + 1 in
  let m := if mp <? 10 then mp + 3 else mp - 9 in
  let y := yoe + era * 400 + (if m <=? 2 then 1 else 0) in
  (y, m, d).

(** The day number of a civil date; [d] may run past the end of the
    month. *)
Definition days_from_civil (y m d : Z) : Z :=
  let y := if m <=? 2 then y - 1 else y in
  let era := y / 400 in
  let yoe := y mod 400 in
  let mp := if 2 <? m then m - 3 else m + 9 in
  let doy := (153 * mp + 2) / 5 + d - 1 in
  let doe := yoe * 365 + yoe / 4 - yoe / 100 + doy in
  era * 146097 + doe - 719468.

Definition YearFromTime (t : Z) : Z := (civil_from_days (Day t)).1.1.
(** Months are numbered from 0, as in ECMAScript. *)
Definition MonthFromTime (t : Z) : Z := (civil_from_days (Day t)).1.2 - 1.
Definition DateFromTime (t : Z) : Z := (civil_from_days (Day t)).2.

Definition HourFromTime (t : Z) : Z := (TimeWithinDay t) / 3600000.
Definition MinFromTime (t : Z) : Z := (TimeWithinDay t) / 60000 mod 60.
Definition SecFromTime (t : Z) : Z := (TimeWithinDay t) / 1000 mod 60.
Definition msFromTime (t : Z) : Z := (TimeWithinDay t) mod 1000.

(** MakeDay: the day number of the first day of the month, plus
    [date - 1]. *)
Definition MakeDay (year month date : Z) : Z :=
  let ym := year + month / 12 in
  let mn := month mod 12 in
  days_from_civil ym (mn + 1) 1 + date - 1.

Definition MakeDate (day time : Z) : Z := day * msPerDay + time.

(** The local time of a time value, and the time value of a local
    time. *)
Definition LocalTime {rt : Runtime} (t : Z) : Z := t + LocalTZA t true.
Definition UTC {rt : Runtime} (t : Z) : Z := t - LocalTZA t false.

(** [d.getDate()]. *)
Definition getDate {rt : Runtime} (t : Z) : Z := DateFromTime (LocalTime t).

(** [d.setDate(dt)]: the new time value of [d]. *)
Definition setDate {rt : Runtime} (t : Z) (dt : Z) : Z :=
  let lt := LocalTime t in
  UTC (MakeDate (MakeDay (YearFromTime lt) (MonthFromTime lt) dt) (TimeWithinDay lt)).

Definition digit (d : Z) : ascii := ascii_of_nat (48 + Z.to_nat d).

(** [w] decimal digits of [n], most significant first. *)
Fixpoint pad (w : nat) (n : Z) : string :=
  match w with
  | O => EmptyString
  | S k => String (digit (n / 10 ^ Z.of_nat k mod 10)) (pad k n)
  end.

(** The date part of the ISO format: four digits for the years 0..9999,
    a sign and six digits otherwise. *)
Definition isoDate (y m d : Z) : string :=
  (if (0 <=? y) && (y <=? 9999) then pad 4 y
   else (if y <? 0 then "-" else "+") +:+ pad 6 (Z.abs y))
  +:+ "-" +:+ pad 2 m +:+ "-" +:+ pad 2 d.

Definition isoTime (t : Z) : string :=
  pad 2 (HourFromTime t) +:+ ":" +:+ pad 2 (MinFromTime t) +:+ ":"
  +:+ pad 2 (SecFromTime t) +:+ "." +:+ pad 3 (msFromTime t).

(** [d.toISOString()], always in UTC. *)
Definition toISOString (t : Z) : string :=
  isoDate (YearFromTime t) (MonthFromTime t + 1) (DateFromTime t)
  +:+ "T" +:+ isoTime t +:+ "Z".

End JSDate.

(* ===================================================================== *)
(** ** The world of a request: key-value store and clock *)
(* ===================================================================== *)

Module World.
Import JS.

(** Modelled from the spec: the key-value collaborator [kv_store.tsx]
    imported by the server is not among the sources. It exposes
    [get(key) -> value | null], [set(key, value)] and
    [getByPrefix(prefix) -> [value]], atomic per key. Every value the
    server stores is an object. [writes] logs the calls of [set] in order;
    [clock] gives the successive readings of the system clock and [reads]
    counts the readings taken so far. Storage failures are not modelled. *)
Record world := {
  store : gmap string obj;
  writes : list (string * obj);
  clock : nat -> Z;
  reads : nat
}.

(** A computation of a route: it may throw ([None]) and it threads the
    world; what was written before an exception stays written. *)
Definition M (A : Type) : Type := world -> option A * world.

Definition ret {A} (a : A) : M A := fun w => (Some a, w).

Definition throw {A} : M A := fun w => (None, w).

Definition bind {A B} (m : M A) (k : A -> M B) : M B :=
  fun w =>
    match m w with
    | (Some a, w') => k a w'
    | (None, w') => (None, w')
    end.

Definition lift {A} (o : option A) : M A :=
  match o with
  | Some a => ret a
  | None => throw
  end.

(** Modelled from the spec: [get(key) -> value | null]. *)
Definition kv_get (key : string) : M (option obj) :=
  fun w => (Some (store w !! key), w).

(** Modelled from the spec: [set(key, value)], which replaces the value
    of the key. *)
Definition kv_set (key : string) (value : obj) : M unit :=
  fun w => (Some tt,
            {| store := <[key := value]> (store w);
               writes := writes w ++ [(key, value)];
               clock := clock w;
               reads := reads w |}).

(** Modelled from the spec: [getByPrefix(prefix) -> [value]]. The order
    of the result is the one of the underlying map; the collaborator
    promises none. *)
Definition kv_getByPrefix (prefix : string) : M (list obj) :=
  fun w => (Some (map snd (filter (fun kv => Is_true (startsWith kv.1 prefix))
                                  (map_to_list (store w)))), w).

(** [new Date()] and [Date.now()]: the next reading of the clock. *)
Definition new_Date : M Z :=
  fun w => (Some (clock w (reads w)),
            {| store := store w;
               writes := writes w;
               clock := clock w;
               reads := S (reads w) |}).

(** [for (const x of l) { await f(x) }]. *)
Fixpoint forEachM {A} (f : A -> M unit) (l : list A) : M unit :=
  match l with
  | [] => ret tt
  | x :: r => bind (f x) (fun _ => forEachM f r)
  end.

End World.

Notation "'let*' x ':=' m 'in' k" := (World.bind m (fun x => k))
  (at level 10, x name, m at level 100, k at level 200).
Notation "m ';;' k" := (World.bind m (fun _ => k))
  (at level 100, k at level 200, right associativity, only parsing).

(* ===================================================================== *)
(** ** The routes of the server *)
(* ===================================================================== *)

Module Server.
Import JS JSDate World.

(** [c.json(body, status)]. *)
Inductive response :=
| Json (status : Z) (body : obj).

(** An object literal [{...base, k1: v1, ..., kn: vn}]: later properties
    override earlier ones. *)
Definition assign (base : obj) (props : list (string * jsval)) : obj :=
  fold_left (fun o kv => <[kv.1 := kv.2]> o) props base.

Definition error (msg : string) : obj := assign ∅ [("error", VStr msg)].

(** [try { ... } catch (err) { return c.json({ error: msg }, 500) }]. *)
Definition try_catch (m : M response) (msg : string) : world -> response * world :=
  fun w =>
    match m w with
    | (Some r, w') => (r, w')
    | (None, w') => (Json 500 (error msg), w')
    end.

Inductive MasteryLevel := weak | learning | improving | mastered.

Definition level_name (l : MasteryLevel) : string :=
  match l with
  | weak => "weak"
  | learning => "learning"
  | improving => "improving"
  | mastered => "mastered"
  end.

(** [function calculateMasteryLevel(progress: any, day: number, score: number)]. *)
Definition calculateMasteryLevel {rt : Runtime} (progress : obj) (day score : jsval) : MasteryLevel :=
  let day1 := js_or (prop progress "day1_score") (VNum (of_Z 0)) in
  let day3 := js_or (prop progress "day3_score") (VNum (of_Z 0)) in
  let day7 := js_or (prop progress "day7_score") (VNum (of_Z 0)) in
  if strict_eq day (VNum (of_Z 7)) && js_ge day7 80 then mastered
  else if js_ge day 3 && js_ge day3 70 && js_ge day1 60 then improving
  else if strict_eq day (VNum (of_Z 1)) && js_ge day1 60 then learning
  else weak.

(** [diagnostic.questions.forEach((q, index) =>
      { if (answers[index] === q.correctAnswer) correct++ })]. *)
Fixpoint countCorrect (questions : list jsval) (answers : jsval) (index : nat) (correct : Z) : option Z :=
  match questions with
  | [] => Some correct
  | q :: qs =>
      match JS.index answers index, member q "correctAnswer" with
      | Some a, Some c =>
          countCorrect qs answers (S index) (if strict_eq a c then correct + 1 else correct)
      | _, _ => None
      end
  end.

(** [score < 70 || confidence < 3]. *)
Definition isWeak {rt : Runtime} (score : jsnum) (confidence : jsval) : bool :=
  num_lt score (of_Z 70) || js_lt confidence 3.

Definition revisionDays : list Z := [1; 3; 7].

(** The body of the scheduling loop: the key and the record of the
    revision of one day. *)
Definition scheduleRevision {rt : Runtime} (uid : string) (diagnostic : obj) (now : Z) (day : Z) : string * obj :=
  let scheduledDate := setDate now (getDate now + day) in
  let revisionId :=
    "revision:" +:+ uid +:+ ":" +:+ ToString (prop diagnostic "topic")
    +:+ ":day" +:+ NumberToString (of_Z day) in
  (revisionId,
   assign ∅ [("user_id", VStr uid);
             ("topic", prop diagnostic "topic");
             ("subject", prop diagnostic "subject");
             ("revision_day", VNum (of_Z day));
             ("scheduled_date", VStr (toISOString scheduledDate));
             ("completed", VBool false)]).

(** The score of a submission: [(correct / questions.length) * 100]. *)
Definition scoreOf (correct : Z) (questions : list jsval) : jsnum :=
  num_mul (num_div (of_Z correct) (of_Z (Z.of_nat (length questions)))) (of_Z 100).

(** The [result] object of a submission. *)
Definition resultRecord {rt : Runtime} (diagnosticId : string) (diagnostic : obj) (questions : list jsval) (correct : Z) (timeTaken confidence : jsval) (completed_at : Z) : obj :=
  let total := of_Z (Z.of_nat (length questions)) in
  assign ∅ [("diagnosticId", VStr diagnosticId);
            ("score", VNum (scoreOf correct questions));
            ("correct", VNum (of_Z correct));
            ("total", VNum total);
            ("avgTime", VNum (num_div (ToNumber timeTaken) total));
            ("confidence", confidence);
            ("topic", prop diagnostic "topic");
            ("subject", prop diagnostic "subject");
            ("completed_at", VStr (toISOString completed_at))].

Definition resultId {rt : Runtime} (uid : string) (stamp : Z) : string :=
  "result:" +:+ uid +:+ ":" +:+ NumberToString (of_Z stamp).

Definition weakConceptId {rt : Runtime} (uid : string) (diagnostic : obj) : string :=
  "weak:" +:+ uid +:+ ":" +:+ ToString (prop diagnostic "topic").

(** The weak-concept record of a submission. *)
Definition weakConcept (uid : string) (diagnostic : obj) (score : jsnum) (confidence : jsval) (created_at : Z) : obj :=
  assign ∅ [("user_id", VStr uid);
            ("topic", prop diagnostic "topic");
            ("subject", prop diagnostic "subject");
            ("score", VNum score);
            ("confidence", confidence);
            ("created_at", VStr (toISOString created_at))].

(** [POST /diagnostic/submit], inside the [try] block. [user] is the
    user resolved from the access token, [None] when the token is missing
    or rejected. *)
Definition submitDiagnostic {rt : Runtime} (user : option string) (diagnosticId : string) (answers timeTaken confidence : jsval) : M response :=
  match user with
  | None => ret (Json 401 (error "Unauthorized"))
  | Some uid =>
      let* diagnostic := kv_get diagnosticId in
      match diagnostic with
      | None => ret (Json 404 (error "Diagnostic not found"))
      | Some diagnostic =>
          if negb (strict_eq (prop diagnostic "user_id") (VStr uid))
          then ret (Json 404 (error "Diagnostic not found"))
          else
            let* questions :=
              lift (match prop diagnostic "questions" with
                    | VArr l => Some l
                    | _ => None
                    end) in
            let* correct := lift (countCorrect questions answers 0 0) in
            let score := scoreOf correct questions in
            let* completed_at := new_Date in
            let result :=
              resultRecord diagnosticId diagnostic questions correct
                           timeTaken confidence completed_at in
            kv_set diagnosticId
                   (assign diagnostic [("completed", VBool true); ("result", VObj result)]);;
            let* stamp := new_Date in
            kv_set (resultId uid stamp) result;;
            (if isWeak score confidence
             then
               let* created_at := new_Date in
               kv_set (weakConceptId uid diagnostic)
                      (weakConcept uid diagnostic score confidence created_at)
             else ret tt);;
            let* now := new_Date in
            forEachM (fun day =>
                        let r := scheduleRevision uid diagnostic now day in
                        kv_set r.1 r.2)
                     revisionDays;;
            ret (Json 200 (assign ∅ [("result", VObj result)]))
      end
  end.

Definition diagnostic_submit {rt : Runtime} (user : option string) (diagnosticId : string) (answers timeTaken confidence : jsval) : world -> response * world :=
  try_catch (submitDiagnostic user diagnosticId answers timeTaken confidence)
            "Failed to submit diagnostic".

(** The predicate of the filter of [GET /revisions]:
    [r.scheduled_date.split('T')[0] <= today && !r.completed]. Calling
    [split] on anything but a string throws. *)
Definition isDue (today : string) (r : obj) : option bool :=
  match prop r "scheduled_date" with
  | VStr s => Some (str_le (split0 "T" s) today && negb (truthy (prop r "completed")))
  | _ => None
  end.

(** [allRevisions.filter(...)]. *)
Fixpoint dueRevisions (today : string) (allRevisions : list obj) : option (list obj) :=
  match allRevisions with
  | [] => Some []
  | r :: rs =>
      match isDue today r with
      | None => None
      | Some b =>
          match dueRevisions today rs with
          | None => None
          | Some due => Some (if b then r :: due else due)
          end
      end
  end.

(** [GET /revisions], inside the [try] block. *)
Definition getRevisions (user : option string) : M response :=
  match user with
  | None => ret (Json 401 (error "Unauthorized"))
  | Some uid =>
      let* allRevisions := kv_getByPrefix ("revision:" +:+ uid) in
      let* now := new_Date in
      let today := split0 "T" (toISOString now) in
      let* todaysRevisions := lift (dueRevisions today allRevisions) in
      ret (Json 200 (assign ∅ [("revisions", VArr (map VObj todaysRevisions))]))
  end.

Definition revisions_get (user : option string) : world -> response * world :=
  try_catch (getRevisions user) "Failed to fetch revisions".

(** The record written back for a completed revision. *)
Definition completed (revision : obj) (recallScore : jsval) (now : Z) : obj :=
  assign revision [("completed", VBool true);
                   ("recall_score", recallScore);
                   ("completed_at", VStr (toISOString now))].

(** The merged progress record. *)
Definition mergeProgress {rt : Runtime} (existingProgress : obj) (uid : string) (revision : obj) (recallScore : jsval) (now : Z) : obj :=
  assign existingProgress
         [("user_id", VStr uid);
          ("topic", prop revision "topic");
          ("subject", prop revision "subject");
          ("day" +:+ ToString (prop revision "revision_day") +:+ "_score", recallScore);
          ("mastery_level",
           VStr (level_name (calculateMasteryLevel existingProgress
                                                   (prop revision "revision_day") recallScore)));
          ("updated_at", VStr (toISOString now))].

Definition progressId {rt : Runtime} (uid : string) (revision : obj) : string :=
  "progress:" +:+ uid +:+ ":" +:+ ToString (prop revision "topic").

(** [POST /revisions/complete], inside the [try] block. *)
Definition completeRevision {rt : Runtime} (user : option string) (revisionId : string) (recallScore : jsval) : M response :=
  match user with
  | None => ret (Json 401 (error "Unauthorized"))
  | Some uid =>
      let* revision := kv_get revisionId in
      match revision with
      | None => ret (Json 404 (error "Revision not found"))
      | Some revision =>
          if negb (strict_eq (prop revision "user_id") (VStr uid))
          then ret (Json 404 (error "Revision not found"))
          else
            let* completed_at := new_Date in
            let updated := completed revision recallScore completed_at in
            kv_set revisionId updated;;
            let* existing := kv_get (progressId uid revision) in
            let existingProgress := default ∅ existing in
            let* updated_at := new_Date in
            let progress := mergeProgress existingProgress uid revision recallScore updated_at in
            kv_set (progressId uid revision) progress;;
            ret (Json 200 (assign ∅ [("revision", VObj updated); ("progress", VObj progress)]))
      end
  end.

Definition revisions_complete {rt : Runtime} (user : option string) (revisionId : string) (recallScore : jsval) : world -> response * world :=
  try_catch (completeRevision user revisionId recallScore) "Failed to complete revision".

End Server.

(* ===================================================================== *)
(** ** The wording of the specification *)
(* ===================================================================== *)

Module Spec.
Import JS JSDate World Server.

(** [computeMasteryLevel(existingProgress, revisionDayJustCompleted,
    newScore)] as section 4.2 words it: missing day scores default to 0
    (through [??]) and the thresholds are compared literally. *)
Definition computeMasteryLevel {rt : Runtime} (existingProgress : obj) (revisionDayJustCompleted : Z) (newScore : jsval) : MasteryLevel :=
  let day1 := js_nullish (prop existingProgress "day1_score") (VNum (of_Z 0)) in
  let day3 := js_nullish (prop existingProgress "day3_score") (VNum (of_Z 0)) in
  let day7 := js_nullish (prop existingProgress "day7_score") (VNum (of_Z 0)) in
  if (revisionDayJustCompleted =? 7) && js_ge day7 80 then mastered
  else if (3 <=? revisionDayJustCompleted) && js_ge day3 70 && js_ge day1 60 then improving
  else if (revisionDayJustCompleted =? 1) && js_ge day1 60 then learning
  else weak.

(** A revision scheduled at time [scheduled] is due at time [asOf]:
    [date(scheduledDate) <= date(asOf)] and [completed == false]. *)
Definition due (scheduled asOf : Z) (completed : bool) : bool :=
  (Day scheduled <=? Day asOf) && negb completed.

(** The years that the ISO format writes with four digits. *)
Definition fourDigitYear (t : Z) : Prop := 0 <= YearFromTime t <= 9999.

(** The time value at which the local clock shows the time of day that
    it shows at [t], [days] calendar days after the local date of [t]. *)
Definition addCalendarDays {rt : Runtime} (t days : Z) : Z :=
  UTC (LocalTime t + days * msPerDay).


(** The writes of a route: what it appended to the log. *)
Definition new_writes (before after : world) : list (string * obj) :=
  drop (length (writes before)) (writes after).

(** The [progress.mastery_level] of a response. *)
Definition mastery_of (r : response) : jsval :=
  match r with
  | Json _ body =>
      match prop body "progress" with
      | VObj p => prop p "mastery_level"
      | _ => VUndef
      end
  end.

Definition status_of (r : response) : Z :=
  match r with
  | Json status _ => status
  end.

(** The store after the calls of [set] in [l], in order. *)
Definition apply_writes (l : list (string * obj)) (st : gmap string obj) : gmap string obj :=
  fold_left (fun st kv => <[kv.1 := kv.2]> st) l st.

(** The calls of [set] of a submission before the scheduling loop, in
    order: the diagnostic, the result, and the weak concept when the
    submission qualifies. *)
Definition grading_writes {rt : Runtime} (uid diagnosticId : string) (timeTaken confidence : jsval) (diagnostic : obj) (questions : list jsval) (correct : Z) (w : world) : list (string * obj) :=
  let score := scoreOf correct questions in
  let result :=
    resultRecord diagnosticId diagnostic questions correct timeTaken confidence
                 (clock w (reads w)) in
  [(diagnosticId, assign diagnostic [("completed", VBool true); ("result", VObj result)]);
   (resultId uid (clock w (S (reads w))), result)]
  ++ (if isWeak score confidence
      then [(weakConceptId uid diagnostic,
             weakConcept uid diagnostic score confidence (clock w (S (S (reads w)))))]
      else []).

(** The reading of the clock taken by [const now = new Date()]: the third
    of the request, the fourth when a weak concept was recorded. *)
Definition anchorTime {rt : Runtime} (confidence : jsval) (questions : list jsval) (correct : Z) (w : world) : Z :=
  clock w (if isWeak (scoreOf correct questions) confidence
           then S (S (S (reads w))) else S (S (reads w))).

(** All the calls of [set] of a submission that runs to its end. *)
Definition submit_writes {rt : Runtime} (uid diagnosticId : string) (timeTaken confidence : jsval) (diagnostic : obj) (questions : list jsval) (correct : Z) (w : world) : list (string * obj) :=
  grading_writes uid diagnosticId timeTaken confidence diagnostic questions correct w
  ++ map (scheduleRevision uid diagnostic (anchorTime confidence questions correct w))
         revisionDays.

(** The name of the score field of a revision day. *)
Definition dayKey (day : Z) : string := "day" +:+ pretty day +:+ "_score".

(** The key under which the revision of a day is stored. *)
Definition revisionKey {rt : Runtime} (uid : string) (diagnostic : obj) (day : Z) : string :=
  "revision:" +:+ uid +:+ ":" +:+ ToString (prop diagnostic "topic")
  +:+ ":day" +:+ pretty day.

(** Civil dates in chronological order. *)
Definition lex_lt (a b : Z * Z * Z) : Prop :=
  a.1.1 < b.1.1 \/ (a.1.1 = b.1.1 /\ (a.1.2 < b.1.2 \/ (a.1.2 = b.1.2 /\ a.2 < b.2))).

(** The first day of a year within its cycle of 400 years, and of a
    month within a year that starts in March. *)
Definition year_start (y : Z) : Z := 365 * y + y / 4 - y / 100 + y / 400.
Definition month_start (mp : Z) : Z := (153 * mp + 2) / 5.

(** No character of [s] is [sep]. *)
Fixpoint lacks (sep : ascii) (s : string) : bool :=
  match s with
  | EmptyString => true
  | String c r => negb (Ascii.eqb c sep) && lacks sep r
  end.

End Spec.

(* ===================================================================== *)
(** ** A scenario: two diagnostics on one topic *)
(* ===================================================================== *)

Module Scenario.
Import JS JSDate World Server Spec.

(** A runtime in UTC. The two coercions left open are never reached in
    the scenario. *)
Definition utc : Runtime :=
  {| StringToNumber_nonempty := fun _ => NaN;
     NumberToString_other := fun _ => EmptyString;
     LocalTZA := fun _ _ => 0 |}.

#[local] Existing Instance utc.

Definition uid : string := "u1".

Definition question (correctAnswer : Z) : jsval :=
  VObj (assign ∅ [("correctAnswer", VNum (of_Z correctAnswer))]).

Definition questions : list jsval :=
  [question 0; question 1; question 2; question 3;
   question 0; question 1; question 2; question 3].

(** A stored diagnostic on the topic Thermodynamics. *)
Definition diagnostic (id : string) : obj :=
  assign ∅ [("id", VStr id); ("user_id", VStr uid);
            ("topic", VStr "Thermodynamics"); ("subject", VStr "Physics");
            ("questions", VArr questions); ("completed", VBool false)].

Definition first : string := "diagnostic:u1:100".
Definition second : string := "diagnostic:u1:200".

(** Five answers out of eight are right: the score is 62.5. *)
Definition answers : jsval :=
  VArr (map (fun a => VNum (of_Z a)) [0; 1; 2; 3; 1; 1; 1; 1]).

Definition timeTaken : jsval := VNum (of_Z 0).
Definition confidence : jsval := VNum (of_Z 2).

(** 2025-11-03T03:00:00.123Z. *)
Definition T0 : Z := 1762138800123.

(** The clock: four readings on 3 November 2025, the later ones two days
    after. *)
Definition clock0 (n : nat) : Z :=
  if (n <? 4)%nat then T0 + Z.of_nat n else T0 + 2 * msPerDay + Z.of_nat n.

Definition w0 : world :=
  {| store := <[second := diagnostic second]> {[first := diagnostic first]};
     writes := [];
     clock := clock0;
     reads := 0 |}.

(** After a first submission on the topic. *)
Definition w1 : world :=
  (diagnostic_submit (Some uid) first answers timeTaken confidence w0).2.

(** After a second submission on the same topic. *)
Definition w2 : world :=
  (diagnostic_submit (Some uid) second answers timeTaken confidence w1).2.

(** The revisions scheduled by the first submission, with their times. *)
Definition revision (day : Z) : obj :=
  (scheduleRevision uid (diagnostic first) (clock0 3) day).2.

Definition schedule : list (Z * obj) :=
  map (fun day => (clock0 3 + day * msPerDay, revision day)) revisionDays.

Definition day1Key : string := "revision:u1:Thermodynamics:day1".

(** The day after the first submission. *)
Definition nextDay : Z := T0 + msPerDay + 5000.

(** The scheduled date of the record stored under a key. *)
Definition scheduled_at (w : world) (key : string) : option jsval :=
  store w !! key ≫= (fun r => r !! "scheduled_date").

(** The recall score of the record stored under a key. *)
Definition recall_score_at (w : world) (key : string) : option jsval :=
  store w !! key ≫= (fun r => r !! "recall_score").

(** The revision records of the user in the store. *)
Definition revisions_of (w : world) : list obj :=
  default [] (kv_getByPrefix ("revision:" +:+ uid) w).1.

End Scenario.

(* ===================================================================== *)
(** ** The other routes of the server *)
(* ===================================================================== *)

Module OtherRoutes.
Import JS JSDate World Server.

(** [s.split(sep)[1]] for a one-character separator: the piece after the
    first separator, [None] ([undefined]) when there is no separator. *)
Fixpoint split1 (sep : ascii) (s : string) : option string :=
  match s with
  | EmptyString => None
  | String c r => if Ascii.eqb c sep then Some (split0 sep r) else split1 sep r
  end.

(** The user that the identity collaborator resolves: [user.id] and
    [user.email]. *)
Record account := {
  account_id : string;
  account_email : jsval
}.

(** The answer of the identity collaborator to [createUser] and to
    [signInWithPassword]: an error with its message, or the session and
    the user. *)
Inductive authResult :=
| AuthError (message : jsval)
| AuthOk (session : jsval) (user : account).

(** [c.req.header('Authorization')?.split(' ')[1]]. *)
Definition accessToken (authorization : option string) : option string :=
  authorization ≫= split1 " ".

(** The preamble of the routes: the token is read from the header, a
    missing or empty token is refused, then [supabase.auth.getUser]
    resolves the user ([None]: an error or no user). The routes below
    take the outcome as [user]. *)
Definition authenticate (getUser : string -> option account) (authorization : option string) : option account :=
  match accessToken authorization with
  | None => None
  | Some token => if String.eqb token "" then None else getUser token
  end.

(** The profile object [{ id: user.id, email: user.email }]. *)
Definition bareProfile (user : account) : obj :=
  assign ∅ [("id", VStr (account_id user)); ("email", account_email user)].

Definition userKey (id : string) : string := "user:" +:+ id.

(** The profile stored for a new user. *)
Definition newProfile (user : account) (name : jsval) (created_at : Z) : obj :=
  assign ∅ [("id", VStr (account_id user));
            ("email", account_email user);
            ("name", js_or name (VStr ""));
            ("class", VNull);
            ("exam_type", VNull);
            ("created_at", VStr (toISOString created_at))].

(** [POST /signup]. [createUser] is the call to the identity
    collaborator, given the email, the password and the name. *)
Definition signup (createUser : jsval -> jsval -> jsval -> authResult) (email password name : jsval) : M response :=
  if negb (truthy email) || negb (truthy password)
  then ret (Json 400 (error "Email and password are required"))
  else
    match createUser email password (js_or name (VStr "")) with
    | AuthError message => ret (Json 400 (assign ∅ [("error", message)]))
    | AuthOk _ user =>
        let* created_at := new_Date in
        let userProfile := newProfile user name created_at in
        kv_set (userKey (account_id user)) userProfile;;
        ret (Json 200 (assign ∅ [("user", VObj userProfile)]))
    end.

Definition route_signup (createUser : jsval -> jsval -> jsval -> authResult) (email password name : jsval) : world -> response * world :=
  try_catch (signup createUser email password name) "Failed to sign up user".

(** [userProfile || { id: user.id, email: user.email }]. *)
Definition profileOr (userProfile : option obj) (user : account) : obj :=
  default (bareProfile user) userProfile.

(** [POST /signin]. *)
Definition signin (signInWithPassword : jsval -> jsval -> authResult) (email password : jsval) : M response :=
  match signInWithPassword email password with
  | AuthError message => ret (Json 400 (assign ∅ [("error", message)]))
  | AuthOk session user =>
      let* userProfile := kv_get (userKey (account_id user)) in
      ret (Json 200 (assign ∅ [("session", session);
                               ("user", VObj (profileOr userProfile user))]))
  end.

Definition route_signin (signInWithPassword : jsval -> jsval -> authResult) (email password : jsval) : world -> response * world :=
  try_catch (signin signInWithPassword email password) "Failed to sign in".

Definition noSession : response :=
  Json 200 (assign ∅ [("session", VNull); ("user", VNull)]).

(** [GET /session]: every failure answers [{ session: null, user: null }]
    with status 200. *)
Definition getSession (getUser : string -> option account) (authorization : option string) : M response :=
  match accessToken authorization with
  | None => ret noSession
  | Some token =>
      if String.eqb token "" then ret noSession
      else
        match getUser token with
        | None => ret noSession
        | Some user =>
            let* userProfile := kv_get (userKey (account_id user)) in
            ret (Json 200
                   (assign ∅ [("session", VObj (assign ∅ [("access_token", VStr token)]));
                              ("user", VObj (profileOr userProfile user))]))
        end
  end.

Definition route_session (getUser : string -> option account) (authorization : option string) : world -> response * world :=
  fun w =>
    match getSession getUser authorization w with
    | (Some r, w') => (r, w')
    | (None, w') => (noSession, w')
    end.

(** [v !== undefined ? v : old]. *)
Definition orKeep (v old : jsval) : jsval :=
  if negb (strict_eq v VUndef) then v else old.

(** The updated profile: the stored one with the three fields of the
    body and the time of the update. *)
Definition mergeProfile (userProfile : obj) (userClass exam_type name : jsval) (updated_at : Z) : obj :=
  assign userProfile
         [("class", orKeep userClass (prop userProfile "class"));
          ("exam_type", orKeep exam_type (prop userProfile "exam_type"));
          ("name", orKeep name (prop userProfile "name"));
          ("updated_at", VStr (toISOString updated_at))].

(** [PUT /profile]; [userClass], [exam_type] and [name] are the fields of
    the body, [undefined] when absent. *)
Definition updateProfile (user : option account) (userClass exam_type name : jsval) : M response :=
  match user with
  | None => ret (Json 401 (error "Unauthorized"))
  | Some user =>
      let* stored := kv_get (userKey (account_id user)) in
      let userProfile := profileOr stored user in
      let* updated_at := new_Date in
      let updatedProfile := mergeProfile userProfile userClass exam_type name updated_at in
      kv_set (userKey (account_id user)) updatedProfile;;
      ret (Json 200 (assign ∅ [("user", VObj updatedProfile)]))
  end.

Definition route_profile (user : option account) (userClass exam_type name : jsval) : world -> response * world :=
  try_catch (updateProfile user userClass exam_type name) "Failed to update profile".

(** The routes that list what is stored under a prefix:
    [const xs = await kv.getByPrefix(`kind:${user.id}`);
     return c.json({ xs })]. *)
Definition listing (kind field : string) (user : option string) : M response :=
  match user with
  | None => ret (Json 401 (error "Unauthorized"))
  | Some uid =>
      let* found := kv_getByPrefix (kind +:+ ":" +:+ uid) in
      ret (Json 200 (assign ∅ [(field, VArr (map VObj found))]))
  end.

(** [GET /notes], [GET /topics], [GET /progress], [GET /weak-concepts]. *)
Definition getNotes : option string -> M response := listing "note" "notes".
Definition getTopics : option string -> M response := listing "topic" "topics".
Definition getProgress : option string -> M response := listing "progress" "progress".
Definition getWeakConcepts : option string -> M response := listing "weak" "weakConcepts".

Definition route_notes (user : option string) : world -> response * world :=
  try_catch (getNotes user) "Failed to fetch notes".
Definition route_topics (user : option string) : world -> response * world :=
  try_catch (getTopics user) "Failed to fetch topics".
Definition route_progress (user : option string) : world -> response * world :=
  try_catch (getProgress user) "Failed to fetch progress".
Definition route_weak_concepts (user : option string) : world -> response * world :=
  try_catch (getWeakConcepts user) "Failed to fetch weak concepts".

(** One generated question: [Array.from({ length: 8 }, (_, i) => ...)] at
    index [i], with [random] the value that [Math.random()] returns. *)
Definition sampleQuestion {rt : Runtime} (topic : jsval) (i : nat) (random : Q) : jsval :=
  let n := NumberToString (of_Z (Z.of_nat i + 1)) in
  VObj (assign ∅
          [("id", VStr ("q" +:+ n));
           ("question", VStr ("Sample question " +:+ n +:+ " for " +:+ ToString topic));
           ("options", VArr [VStr ("Option A for question " +:+ n);
                            VStr ("Option B for question " +:+ n);
                            VStr ("Option C for question " +:+ n);
                            VStr ("Option D for question " +:+ n)]);
           ("correctAnswer", VNum (of_Z (Qfloor (random * 4))))]).

(** The eight questions of a generated diagnostic. *)
Definition sampleQuestions {rt : Runtime} (random : nat -> Q) (topic : jsval) : list jsval :=
  map (fun i => sampleQuestion topic i (random i)) (seq 0 8).

(** The key of a generated diagnostic: [`diagnostic:${user.id}:${Date.now()}`]. *)
Definition diagnosticKey {rt : Runtime} (uid : string) (stamp : Z) : string :=
  "diagnostic:" +:+ uid +:+ ":" +:+ NumberToString (of_Z stamp).

(** The record of a generated diagnostic. *)
Definition newDiagnostic (diagnosticId uid : string) (topic subject : jsval) (questions : list jsval) (created_at : Z) : obj :=
  assign ∅ [("id", VStr diagnosticId);
            ("user_id", VStr uid);
            ("topic", topic);
            ("subject", subject);
            ("questions", VArr questions);
            ("created_at", VStr (toISOString created_at));
            ("completed", VBool false)].

(** [POST /diagnostic/generate]. [random] gives the successive values of
    [Math.random()]. *)
Definition generateDiagnostic {rt : Runtime} (random : nat -> Q) (user : option string) (topic subject : jsval) : M response :=
  match user with
  | None => ret (Json 401 (error "Unauthorized"))
  | Some uid =>
      let questions := sampleQuestions random topic in
      let* stamp := new_Date in
      let diagnosticId := diagnosticKey uid stamp in
      let* created_at := new_Date in
      let diagnostic := newDiagnostic diagnosticId uid topic subject questions created_at in
      kv_set diagnosticId diagnostic;;
      ret (Json 200 (assign ∅ [("diagnostic", VObj diagnostic)]))
  end.

Definition route_generate {rt : Runtime} (random : nat -> Q) (user : option string) (topic subject : jsval) : world -> response * world :=
  try_catch (generateDiagnostic random user topic subject) "Failed to generate diagnostic test".

(** [revisions.filter((r) => r.completed)]. *)
Definition completedRevisions (revisions : list obj) : list obj :=
  List.filter (fun r => truthy (prop r "completed")) revisions.

Definition count (l : list obj) : jsval := VNum (of_Z (Z.of_nat (length l))).

(** [GET /dashboard]. The three reads of [Promise.all] write nothing, so
    their order does not matter. *)
Definition getDashboard (user : option string) : M response :=
  match user with
  | None => ret (Json 401 (error "Unauthorized"))
  | Some uid =>
      let* weakConcepts := kv_getByPrefix ("weak:" +:+ uid) in
      let* revisions := kv_getByPrefix ("revision:" +:+ uid) in
      let* progress := kv_getByPrefix ("progress:" +:+ uid) in
      let streak := Z.min (Z.of_nat (length (completedRevisions revisions))) 7 in
      let* now := new_Date in
      let today := split0 "T" (toISOString now) in
      let* todaysRevisions := lift (dueRevisions today revisions) in
      ret (Json 200 (assign ∅ [("weakConceptsCount", count weakConcepts);
                               ("upcomingRevisionsCount", count todaysRevisions);
                               ("masteryProgress", count progress);
                               ("streak", VNum (of_Z streak))]))
  end.

Definition route_dashboard (user : option string) : world -> response * world :=
  try_catch (getDashboard user) "Failed to fetch dashboard".

End OtherRoutes.

(* ===================================================================== *)
(** ** Vocabulary for the routes taken together *)
(* ===================================================================== *)

Module Views.
Import JS JSDate World Server Spec OtherRoutes.

(** The records that [getByPrefix] finds in a store. *)
Definition under (prefix : string) (st : gmap string obj) : list obj :=
  map snd (filter (fun kv => Is_true (startsWith kv.1 prefix)) (map_to_list st)).

(** The number of completed revisions of a user in a store. *)
Definition completedCount (uid : string) (st : gmap string obj) : nat :=
  length (completedRevisions (under ("revision:" +:+ uid) st)).

(** A field of the body of a response. *)
Definition field_of (r : response) (k : string) : jsval :=
  match r with
  | Json _ body => prop body k
  end.

(** [undefined] and [null], on which reading a property throws. *)
Definition nullish (v : jsval) : bool :=
  match v with
  | VUndef | VNull => true
  | _ => false
  end.

(** A score, missing ones counting as 0, that is below every threshold
    of [calculateMasteryLevel]. *)
Definition below60 {rt : Runtime} (v : jsval) : bool :=
  negb (js_ge (js_or v (VNum (of_Z 0))) 60).

(** A progress record all of whose day scores are below 60. *)
Definition lowScores {rt : Runtime} (p : obj) : bool :=
  below60 (prop p "day1_score") && below60 (prop p "day3_score")
  && below60 (prop p "day7_score").

(** The four listing routes, each with the field of its answer and the
    kind of key that it reads. *)
Definition listingRoutes : list ((option string -> world -> response * world) * string * string) :=
  [(route_notes, "notes", "note");
   (route_topics, "topics", "topic");
   (route_progress, "progress", "progress");
   (route_weak_concepts, "weakConcepts", "weak")].

(** The answers that repeat the [correctAnswer] of every question. *)
Definition answerKey (questions : list jsval) : list jsval :=
  map (fun q => default VUndef (member q "correctAnswer")) questions.

(** A value that [===] finds equal to itself: neither NaN nor an array
    nor an object. *)
Definition selfEqual (v : jsval) : bool := strict_eq v v.

End Views.

(* ===================================================================== *)
(** ** A walk through the other routes *)
(* ===================================================================== *)

Module Walkthrough.
Import JS JSDate World Server Spec OtherRoutes Views.

#[local] Existing Instance Scenario.utc.

(** The identity collaborator knows one user, whose access token is
    [t1]. *)
Definition alice : account :=
  {| account_id := "u1"; account_email := VStr "alice@example.org" |}.

Definition email : jsval := VStr "alice@example.org".
Definition password : jsval := VStr "correct horse".
Definition name : jsval := VStr "Alice".

Definition createUser (email password name : jsval) : authResult := AuthOk VNull alice.

Definition token : jsval := VObj (assign ∅ [("access_token", VStr "t1")]).

Definition signInWithPassword (email password : jsval) : authResult := AuthOk token alice.

Definition getUser (accessToken : string) : option account :=
  if String.eqb accessToken "t1" then Some alice else None.

Definition header : option string := Some "Bearer t1".

(** [Math.random()] answers one half every time. *)
Definition random (i : nat) : Q := 1 # 2.

(** A store that holds one weak concept, of the user [u1]. *)
Definition heat : obj := assign ∅ [("user_id", VStr "u1"); ("topic", VStr "Heat")].

Definition shelf : world :=
  {| store := {["weak:u1:Heat" := heat]};
     writes := [];
     clock := Scenario.clock0;
     reads := 0 |}.

(** Twenty questions whose correct answer is 0, and answers of which
    the first eleven are right. *)
Definition twenty : list jsval := List.repeat (Scenario.question 0) 20.

Definition eleven : jsval :=
  VArr (List.repeat (VNum (of_Z 0)) 11 ++ List.repeat (VNum (of_Z 1)) 9).

End Walkthrough.

(* ===================================================================== *)
(** ** A submission on the eve of the end of daylight saving *)
(* ===================================================================== *)

Module Autumn.
Import JS JSDate World Server Spec.

Definition msPerHour : Z := 3600000.

(** The zone of New York around the end of daylight saving in 2025: four
    hours behind UTC until 2025-11-02T06:00Z, when the local clock goes
    from 02:00 back to 01:00, and five hours behind from then on. A local
    time that the clock shows twice is read with the earlier offset, as
    ECMAScript prescribes. *)
Definition newYork : Runtime :=
  {| StringToNumber_nonempty := fun _ => NaN;
     NumberToString_other := fun _ => EmptyString;
     LocalTZA := fun t isUTC =>
                   if isUTC
                   then (if t <? 1762063200000 then -4 * msPerHour else -5 * msPerHour)
                   else (if t <? 1762048800000 then -4 * msPerHour else -5 * msPerHour) |}.

(** 2025-11-01T12:00:00.000Z: eight in the morning in New York. *)
Definition noon : Z := 1761998400000.

(** The store of [Scenario.w0] with a clock that stands at [noon]. *)
Definition w0 : world :=
  {| store := store Scenario.w0;
     writes := [];
     clock := fun _ => noon;
     reads := 0 |}.

(** After a submission. *)
Definition w1 : world :=
  (diagnostic_submit (rt := newYork) (Some Scenario.uid) Scenario.first Scenario.answers
     Scenario.timeTaken Scenario.confidence w0).2.

End Autumn.

Import JS JSDate World Server Spec.

(* ===================================================================== *)
(** ** The civil calendar *)
(* ===================================================================== *)

Ltac div_lia := Z.to_euclidean_division_equations; lia.

Ltac split_ifs :=
  repeat match goal with
         | |- context [if ?b then _ else _] => destruct b eqn:?
         end.

Lemma year_start_mono a b : a <= b -> year_start a <= year_start b.
Proof. unfold year_start. intros. div_lia. Qed.

Lemma month_start_mono a b : a <= b -> month_start a <= month_start b.
Proof. unfold month_start. intros. div_lia. Qed.

(** The year of a day within its cycle: the day lies between the start of
    that year and the start of the next. *)
Lemma yoe_bounds doe :
  0 <= doe < 146097 ->
  let yoe := (doe - doe / 1460 + doe / 36524 - doe / 146096) / 365 in
  0 <= yoe <= 399 /\ year_start yoe <= doe < year_start (yoe + 1)
  /\ year_start yoe = 365 * yoe + yoe / 4 - yoe / 100.
Proof. unfold year_start. intros. div_lia. Qed.

Lemma mp_bounds doy :
  0 <= doy <= 365 ->
  let mp := (5 * doy + 2) / 153 in
  0 <= mp <= 11 /\ month_start mp <= doy < month_start (mp + 1).
Proof. unfold month_start. intros. div_lia. Qed.

Lemma year_length yoe : 0 <= yoe <= 399 -> year_start (yoe + 1) - year_start yoe <= 366.
Proof. unfold year_start. intros. div_lia. Qed.

Lemma civil_range z :
  1 <= (civil_from_days z).1.2 <= 12 /\ 1 <= (civil_from_days z).2 <= 31.
Proof. unfold civil_from_days. cbn [fst snd]. split_ifs; div_lia. Qed.

(** A later day has a later civil date. *)
Lemma civil_from_days_lt z1 z2 :
  z1 < z2 -> lex_lt (civil_from_days z1) (civil_from_days z2).
Proof.
  intros Hlt. unfold civil_from_days, lex_lt. cbn [fst snd].
  pose proof (Z.div_mod (z1 + 719468) 146097 ltac:(lia)) as E1.
  pose proof (Z.mod_pos_bound (z1 + 719468) 146097 ltac:(lia)) as B1.
  pose proof (Z.div_mod (z2 + 719468) 146097 ltac:(lia)) as E2.
  pose proof (Z.mod_pos_bound (z2 + 719468) 146097 ltac:(lia)) as B2.
  set (era1 := (z1 + 719468) / 146097) in *.
  set (doe1 := (z1 + 719468) mod 146097) in *.
  set (era2 := (z2 + 719468) / 146097) in *.
  set (doe2 := (z2 + 719468) mod 146097) in *.
  pose proof (yoe_bounds doe1 B1) as Y1. pose proof (yoe_bounds doe2 B2) as Y2.
  cbv zeta in Y1, Y2.
  set (yoe1 := (doe1 - doe1 / 1460 + doe1 / 36524 - doe1 / 146096) / 365) in *.
  set (yoe2 := (doe2 - doe2 / 1460 + doe2 / 36524 - doe2 / 146096) / 365) in *.
  destruct Y1 as (Y1a & Y1b & Y1c), Y2 as (Y2a & Y2b & Y2c).
  pose proof (year_length yoe1 Y1a) as D1. pose proof (year_length yoe2 Y2a) as D2.
  rewrite <- Y1c, <- Y2c.
  pose proof (year_start_mono (yoe1 + 1) yoe2) as M12.
  pose proof (year_start_mono (yoe2 + 1) yoe1) as M21.
  assert (yoe1 = yoe2 -> year_start yoe1 = year_start yoe2) as Meq by congruence.
  set (doy1 := doe1 - year_start yoe1) in *.
  set (doy2 := doe2 - year_start yoe2) in *.
  pose proof (mp_bounds doy1 ltac:(lia)) as P1.
  pose proof (mp_bounds doy2 ltac:(lia)) as P2.
  cbv zeta in P1, P2.
  fold (month_start ((5 * doy1 + 2) / 153)). fold (month_start ((5 * doy2 + 2) / 153)).
  set (mp1 := (5 * doy1 + 2) / 153) in *. set (mp2 := (5 * doy2 + 2) / 153) in *.
  destruct P1 as (P1a & P1b), P2 as (P2a & P2b).
  pose proof (month_start_mono (mp1 + 1) mp2) as N12.
  pose proof (month_start_mono (mp2 + 1) mp1) as N21.
  assert (mp1 = mp2 -> month_start mp1 = month_start mp2) as Neq by congruence.
  assert (Hd1 : doy1 = doe1 - year_start yoe1) by reflexivity.
  assert (Hd2 : doy2 = doe2 - year_start yoe2) by reflexivity.
  clear Y1c Y2c.
  clearbody doy1 doy2 mp1 mp2 yoe1 yoe2 era1 era2 doe1 doe2.
  generalize dependent (month_start mp1). generalize dependent (month_start mp2).
  generalize dependent (month_start (mp1 + 1)).
  generalize dependent (month_start (mp2 + 1)).
  generalize dependent (year_start yoe1). generalize dependent (year_start yoe2).
  generalize dependent (year_start (yoe1 + 1)).
  generalize dependent (year_start (yoe2 + 1)).
  intros. split_ifs; lia.
Qed.

(** The day number of the civil date of a day is that day. *)
Lemma days_from_civil_from_days z :
  let c := civil_from_days z in days_from_civil c.1.1 c.1.2 c.2 = z.
Proof.
  unfold civil_from_days, days_from_civil. cbn [fst snd]. split_ifs; div_lia.
Qed.

Lemma MakeDay_DateFromTime t n :
  MakeDay (YearFromTime t) (MonthFromTime t) (DateFromTime t + n) = Day t + n.
Proof.
  unfold MakeDay, YearFromTime, MonthFromTime, DateFromTime.
  destruct (civil_range (Day t)) as [Hm _].
  pose proof (days_from_civil_from_days (Day t)) as R. cbv zeta in R.
  set (c := civil_from_days (Day t)) in *.
  replace ((c.1.2 - 1) / 12) with 0 by div_lia.
  replace ((c.1.2 - 1) mod 12 + 1) with (c.1.2) by div_lia.
  rewrite Z.add_0_r, <- R. unfold days_from_civil. lia.
Qed.

(** Moving the day of the month by [n] moves the local time by [n] days:
    the local date advances by [n] and the local time of day is kept.
    The new time value is the one of that local time, which is [n] times
    24 hours later only if the zone has the same offset there. *)
Lemma setDate_getDate {rt : Runtime} t n : setDate t (getDate t + n) = addCalendarDays t n.
Proof.
  unfold setDate, getDate, addCalendarDays. rewrite MakeDay_DateFromTime. f_equal.
  unfold MakeDate, Day, TimeWithinDay.
  pose proof (Z.div_mod (LocalTime t) msPerDay ltac:(unfold msPerDay; lia)). lia.
Qed.

Lemma Day_add_days t n : Day (t + n * msPerDay) = Day t + n.
Proof. unfold Day. apply Z.div_add. unfold msPerDay. lia. Qed.


(* ===================================================================== *)
(** ** ISO strings and their order *)
(* ===================================================================== *)

Lemma append_cons c r s : String c r +:+ s = String c (r +:+ s).
Proof. reflexivity. Qed.

Lemma append_nil_l s : EmptyString +:+ s = s.
Proof. reflexivity. Qed.

Lemma append_nil_r s : s +:+ EmptyString = s.
Proof. induction s as [|c s IH]; [reflexivity|]. rewrite append_cons, IH. reflexivity. Qed.

Lemma append_inj_l p a b : p +:+ a = p +:+ b -> a = b.
Proof.
  induction p as [|c p IH]; [trivial|]. rewrite !append_cons. intros E.
  injection E as E. auto.
Qed.

Lemma nat_of_digit x : 0 <= x <= 9 -> nat_of_ascii (digit x) = (48 + Z.to_nat x)%nat.
Proof. intros Hx. unfold digit. apply nat_ascii_embedding. lia. Qed.

(** Two numbers written with the same number of digits compare as their
    digit strings do. *)
Lemma str_le_pad w : forall a b s t,
  0 <= a -> 0 <= b -> a / 10 ^ Z.of_nat w = b / 10 ^ Z.of_nat w ->
  str_le (pad w a +:+ s) (pad w b +:+ t)
  = if a <? b then true else if b <? a then false else str_le s t.
Proof.
  induction w as [|k IH]; intros a b s t Ha Hb Hab.
  - cbn in Hab |- *. rewrite !Z.div_1_r in Hab. subst b.
    rewrite Z.ltb_irrefl. reflexivity.
  - rewrite Nat2Z.inj_succ, Z.pow_succ_r in Hab by lia.
    rewrite (Z.mul_comm 10), <- !Z.div_div in Hab by lia.
    assert (0 < 10 ^ Z.of_nat k) as Hpos by (apply Z.pow_pos_nonneg; lia).
    cbn [pad]. rewrite !append_cons. cbn [str_le].
    set (A := a / 10 ^ Z.of_nat k) in *. set (B := b / 10 ^ Z.of_nat k) in *.
    assert (A < B -> a < b) as HAB.
    { intros HltAB. destruct (Z.lt_ge_cases a b) as [|Hge]; [assumption|].
      pose proof (Z.div_le_mono b a (10 ^ Z.of_nat k) Hpos Hge). subst A B. lia. }
    assert (B < A -> b < a) as HBA.
    { intros HltAB. destruct (Z.lt_ge_cases b a) as [|Hge]; [assumption|].
      pose proof (Z.div_le_mono a b (10 ^ Z.of_nat k) Hpos Hge). subst A B. lia. }
    pose proof (Z.mod_pos_bound A 10 ltac:(lia)) as HA.
    pose proof (Z.mod_pos_bound B 10 ltac:(lia)) as HB.
    pose proof (Z.div_mod A 10 ltac:(lia)) as EA.
    pose proof (Z.div_mod B 10 ltac:(lia)) as EB.
    rewrite !nat_of_digit by lia.
    destruct (Nat.ltb_spec (48 + Z.to_nat (A mod 10)) (48 + Z.to_nat (B mod 10))) as [H1|H1].
    + assert (a < b) as Hlt by (apply HAB; lia).
      apply Z.ltb_lt in Hlt. rewrite Hlt. reflexivity.
    + destruct (Nat.ltb_spec (48 + Z.to_nat (B mod 10)) (48 + Z.to_nat (A mod 10))) as [H2|H2].
      * assert (b < a) as Hlt by (apply HBA; lia).
        assert ((a <? b) = false) as -> by (apply Z.ltb_ge; lia).
        apply Z.ltb_lt in Hlt. rewrite Hlt. reflexivity.
      * apply IH; [assumption|assumption|]. fold A B. lia.
Qed.

Lemma split0_app sep s r :
  lacks sep s = true -> split0 sep (s +:+ String sep r) = s.
Proof.
  induction s as [|c s IH]; intros Hs; [|rewrite append_cons]; cbn [lacks split0] in *.
  - change (split0 sep (String sep r) = EmptyString). cbn [split0].
    rewrite Ascii.eqb_refl. reflexivity.
  - apply andb_true_iff in Hs as [Hc Hs]. apply negb_true_iff in Hc.
    rewrite Hc, IH by assumption. reflexivity.
Qed.

Lemma lacks_app sep a b : lacks sep (a +:+ b) = lacks sep a && lacks sep b.
Proof.
  induction a as [|c a IH]; [reflexivity|]. rewrite append_cons. cbn [lacks].
  rewrite IH, andb_assoc. reflexivity.
Qed.

Lemma lacks_T_pad w n : lacks "T" (pad w n) = true.
Proof.
  induction w as [|k IH]; cbn [pad lacks]; [reflexivity|].
  rewrite IH, andb_true_r. apply negb_true_iff, Ascii.eqb_neq. intros E.
  pose proof (Z.mod_pos_bound (n / 10 ^ Z.of_nat k) 10 ltac:(lia)) as Hb.
  apply (f_equal nat_of_ascii) in E. rewrite nat_of_digit in E by lia.
  change (nat_of_ascii "T") with 84%nat in E. lia.
Qed.

(** [d.toISOString().split('T')[0]] is the date part. *)
Lemma split0_toISOString t :
  split0 "T" (toISOString t)
  = isoDate (YearFromTime t) (MonthFromTime t + 1) (DateFromTime t).
Proof.
  unfold toISOString. rewrite (append_cons "T" EmptyString), append_nil_l.
  apply split0_app. unfold isoDate.
  destruct ((0 <=? YearFromTime t) && (YearFromTime t <=? 9999));
    [|destruct (YearFromTime t <? 0)];
    rewrite !lacks_app, !lacks_T_pad; reflexivity.
Qed.

Lemma str_le_isoDate y1 m1 d1 y2 m2 d2 :
  0 <= y1 <= 9999 -> 0 <= y2 <= 9999 ->
  1 <= m1 <= 12 -> 1 <= m2 <= 12 -> 1 <= d1 <= 31 -> 1 <= d2 <= 31 ->
  str_le (isoDate y1 m1 d1) (isoDate y2 m2 d2)
  = if y1 <? y2 then true else if y2 <? y1 then false
    else if m1 <? m2 then true else if m2 <? m1 then false
    else if d1 <? d2 then true else if d2 <? d1 then false else true.
Proof.
  intros Hy1 Hy2 Hm1 Hm2 Hd1 Hd2. unfold isoDate.
  assert (forall y, 0 <= y <= 9999 -> (0 <=? y) && (y <=? 9999) = true) as Hin.
  { intros y Hy. apply andb_true_iff. split; apply Z.leb_le; lia. }
  rewrite !Hin by assumption.
  rewrite str_le_pad by (try lia; rewrite !Z.div_small; cbn; lia).
  destruct (y1 <? y2); [reflexivity|]. destruct (y2 <? y1); [reflexivity|].
  rewrite !(append_cons "-"), !append_nil_l. cbn [str_le].
  rewrite !Nat.ltb_irrefl.
  rewrite str_le_pad by (try lia; rewrite !Z.div_small; cbn; lia).
  destruct (m1 <? m2); [reflexivity|]. destruct (m2 <? m1); [reflexivity|].
  cbn [str_le]. rewrite !Nat.ltb_irrefl.
  rewrite <- (append_nil_r (pad 2 d1)), <- (append_nil_r (pad 2 d2)).
  rewrite str_le_pad by (try lia; rewrite !Z.div_small; cbn; lia).
  reflexivity.
Qed.

(** In the years written with four digits, the date parts of two ISO
    strings are ordered as the days they denote. *)
Lemma str_le_date_part t1 t2 :
  fourDigitYear t1 -> fourDigitYear t2 ->
  str_le (split0 "T" (toISOString t1)) (split0 "T" (toISOString t2))
  = (Day t1 <=? Day t2).
Proof.
  unfold fourDigitYear. intros Hy1 Hy2. rewrite !split0_toISOString.
  unfold YearFromTime, MonthFromTime, DateFromTime in *.
  replace ((civil_from_days (Day t1)).1.2 - 1 + 1)
    with ((civil_from_days (Day t1)).1.2) by lia.
  replace ((civil_from_days (Day t2)).1.2 - 1 + 1)
    with ((civil_from_days (Day t2)).1.2) by lia.
  destruct (civil_range (Day t1)) as [Hm1 Hd1], (civil_range (Day t2)) as [Hm2 Hd2].
  rewrite str_le_isoDate by assumption.
  destruct (Z.lt_trichotomy (Day t1) (Day t2)) as [Hlt|[Heq|Hgt]].
  - pose proof (civil_from_days_lt _ _ Hlt) as L. unfold lex_lt in L.
    assert ((Day t1 <=? Day t2) = true) as -> by (apply Z.leb_le; lia).
    repeat match goal with
           | |- context [?a <? ?b] => destruct (Z.ltb_spec a b)
           end; lia || reflexivity.
  - rewrite Heq, !Z.ltb_irrefl, Z.leb_refl. reflexivity.
  - pose proof (civil_from_days_lt _ _ Hgt) as L. unfold lex_lt in L.
    assert ((Day t1 <=? Day t2) = false) as -> by (apply Z.leb_gt; lia).
    repeat match goal with
           | |- context [?a <? ?b] => destruct (Z.ltb_spec a b)
           end; lia || reflexivity.
Qed.

(* ===================================================================== *)
(** ** Numbers and the mastery classification *)
(* ===================================================================== *)

Lemma Qlt_bool_iff p q : Qlt_bool p q = true <-> (p < q)%Q.
Proof.
  unfold Qlt_bool. rewrite negb_true_iff, <- not_true_iff_false, Qle_bool_iff.
  split; [apply Qnot_le_lt | apply Qlt_not_le].
Qed.

Lemma Qlt_bool_of_Z a b : Qlt_bool (inject_Z a) (inject_Z b) = (a <? b).
Proof.
  unfold Qlt_bool, Qle_bool, inject_Z. cbn [Qnum Qden]. rewrite !Z.mul_1_r.
  rewrite Z.ltb_antisym. reflexivity.
Qed.

Lemma num_lt_of_Z a b : num_lt (of_Z a) (of_Z b) = (a <? b).
Proof. apply Qlt_bool_of_Z. Qed.

Lemma num_ge_of_Z a b : num_ge (of_Z a) (of_Z b) = (b <=? a).
Proof.
  change (num_ge (of_Z a) (of_Z b)) with (negb (num_lt (of_Z a) (of_Z b))).
  rewrite num_lt_of_Z, Z.leb_antisym. reflexivity.
Qed.

Lemma num_eq_of_Z a b : num_eq (of_Z a) (of_Z b) = (a =? b).
Proof.
  unfold num_eq, of_Z, Qeq_bool, inject_Z. cbn [Qnum Qden]. rewrite !Z.mul_1_r.
  reflexivity.
Qed.

Section Mastery.
Context {rt : Runtime}.

(** Against a positive threshold, defaulting with [||] and with [??] agree:
    a falsy score that is not missing counts as 0 either way. *)
Lemma js_ge_or_nullish v c :
  0 < c ->
  js_ge (js_or v (VNum (of_Z 0))) c = js_ge (js_nullish v (VNum (of_Z 0))) c.
Proof.
  intros Hc.
  assert (num_ge (of_Z 0) (of_Z c) = false) as H0
    by (rewrite num_ge_of_Z; apply Z.leb_gt; lia).
  destruct v as [| |[|]|[| |q]|s| |]; try reflexivity;
    unfold js_or, js_ge; cbn [truthy js_nullish ToNumber].
  - exact H0.
  - destruct (Qeq_bool q 0) eqn:Eq; cbn [negb ToNumber]; [|reflexivity].
    rewrite H0. symmetry. unfold num_ge, num_lt, of_Z.
    apply negb_false_iff, Qlt_bool_iff. apply Qeq_bool_eq in Eq. rewrite Eq.
    change 0%Q with (inject_Z 0). rewrite <- Zlt_Qlt. exact Hc.
  - unfold StringToNumber. destruct (String.eqb s "") eqn:Es; cbn [negb ToNumber].
    + reflexivity.
    + unfold StringToNumber. rewrite Es. reflexivity.
Qed.

End Mastery.
(* ===================================================================== *)
(** ** Runs of the routes *)
(* ===================================================================== *)

Section Routes.
Context {rt : Runtime}.




Lemma revisions_complete_run uid revisionId recallScore w revision :
  store w !! revisionId = Some revision ->
  strict_eq (prop revision "user_id") (VStr uid) = true ->
  let updated := completed revision recallScore (clock w (reads w)) in
  let existingProgress :=
    default ∅ (<[revisionId := updated]> (store w) !! progressId uid revision) in
  let progress :=
    mergeProgress existingProgress uid revision recallScore (clock w (S (reads w))) in
  revisions_complete (Some uid) revisionId recallScore w
  = (Json 200 (assign ∅ [("revision", VObj updated); ("progress", VObj progress)]),
     {| store := <[progressId uid revision := progress]> (<[revisionId := updated]> (store w));
        writes := (writes w ++ [(revisionId, updated)]) ++ [(progressId uid revision, progress)];
        clock := clock w;
        reads := S (S (reads w)) |}).
Proof.
  intros Hget Hown. 
  unfold revisions_complete, try_catch, completeRevision, bind, kv_get.
  rewrite Hget, Hown. reflexivity.
Qed.

Lemma revisions_complete_missing uid revisionId recallScore w :
  store w !! revisionId = None ->
  revisions_complete (Some uid) revisionId recallScore w
  = (Json 404 (error "Revision not found"), w).
Proof.
  intros Hget. unfold revisions_complete, try_catch, completeRevision, bind, kv_get.
  rewrite Hget. reflexivity.
Qed.

Lemma revisions_complete_foreign uid revisionId recallScore w revision :
  store w !! revisionId = Some revision ->
  strict_eq (prop revision "user_id") (VStr uid) = false ->
  revisions_complete (Some uid) revisionId recallScore w
  = (Json 404 (error "Revision not found"), w).
Proof.
  intros Hget Hown. unfold revisions_complete, try_catch, completeRevision, bind, kv_get.
  rewrite Hget, Hown. reflexivity.
Qed.


Lemma diagnostic_submit_run uid diagnosticId answers timeTaken confidence w diagnostic questions correct :
  store w !! diagnosticId = Some diagnostic ->
  strict_eq (prop diagnostic "user_id") (VStr uid) = true ->
  prop diagnostic "questions" = VArr questions ->
  countCorrect questions answers 0 0 = Some correct ->
  let W := submit_writes uid diagnosticId timeTaken confidence diagnostic questions correct w in
  let result := resultRecord diagnosticId diagnostic questions correct timeTaken confidence (clock w (reads w)) in
  diagnostic_submit (Some uid) diagnosticId answers timeTaken confidence w
  = (Json 200 (assign ∅ [("result", VObj result)]),
     {| store := apply_writes W (store w);
        writes := writes w ++ W;
        clock := clock w;
        reads := if isWeak (scoreOf correct questions) confidence
                 then S (S (S (S (reads w)))) else S (S (S (reads w))) |}).
Proof.
  intros Hget Hown Hq Hc W result. subst W result.
  unfold diagnostic_submit, try_catch, submitDiagnostic, submit_writes, grading_writes,
    anchorTime, resultId, bind, kv_get.
  rewrite Hget, Hown, Hq. cbn [negb lift ret]. rewrite Hc. cbn [lift ret].
  destruct (isWeak (scoreOf correct questions) confidence);
    cbn -[scheduleRevision resultRecord weakConcept weakConceptId assign NumberToString];
    rewrite <- ?app_assoc; reflexivity.
Qed.

End Routes.

(* ===================================================================== *)
(** ** Records: what the routes read and write *)
(* ===================================================================== *)

Section Objects.
Context {rt : Runtime}.

Lemma completed_lookup revision recallScore now k :
  completed revision recallScore now !! k
  = if decide (k = "completed_at") then Some (VStr (toISOString now))
    else if decide (k = "recall_score") then Some recallScore
    else if decide (k = "completed") then Some (VBool true)
    else revision !! k.
Proof.
  unfold completed, assign. cbn [fold_left fst snd].
  rewrite !lookup_insert. repeat case_decide; congruence.
Qed.

Lemma mergeProgress_lookup existing uid revision recallScore now k :
  mergeProgress existing uid revision recallScore now !! k
  = if decide (k = "updated_at") then Some (VStr (toISOString now))
    else if decide (k = "mastery_level")
         then Some (VStr (level_name (calculateMasteryLevel
                                        existing (prop revision "revision_day") recallScore)))
    else if decide (k = "day" +:+ ToString (prop revision "revision_day") +:+ "_score")
         then Some recallScore
    else if decide (k = "subject") then Some (prop revision "subject")
    else if decide (k = "topic") then Some (prop revision "topic")
    else if decide (k = "user_id") then Some (VStr uid)
    else existing !! k.
Proof.
  unfold mergeProgress, assign. cbn [fold_left fst snd].
  rewrite !lookup_insert. repeat case_decide; congruence.
Qed.

(** The classification reads three properties of the record only. *)
Lemma calculateMasteryLevel_ext p q day s1 s2 :
  prop p "day1_score" = prop q "day1_score" ->
  prop p "day3_score" = prop q "day3_score" ->
  prop p "day7_score" = prop q "day7_score" ->
  calculateMasteryLevel p day s1 = calculateMasteryLevel q day s2.
Proof. unfold calculateMasteryLevel. intros -> -> ->. reflexivity. Qed.

Lemma completed_day_scores revision recallScore now k :
  k = "day1_score" \/ k = "day3_score" \/ k = "day7_score" ->
  prop (completed revision recallScore now) k = prop revision k.
Proof.
  intros Hk. unfold prop. rewrite completed_lookup.
  repeat case_decide; destruct Hk as [-> | [-> | ->]]; (discriminate || reflexivity).
Qed.

Lemma dayKey_ToString N :
  N = 1 \/ N = 3 \/ N = 7 ->
  "day" +:+ ToString (VNum (of_Z N)) +:+ "_score" = dayKey N.
Proof. intros [-> | [-> | ->]]; reflexivity. Qed.

(** The record read back as the existing progress, compared with the one
    stored before the request. *)
Lemma existing_day_scores uid revisionId recallScore w revision k :
  store w !! revisionId = Some revision ->
  k = "day1_score" \/ k = "day3_score" \/ k = "day7_score" ->
  prop (default ∅ (<[revisionId := completed revision recallScore (clock w (reads w))]>
                     (store w) !! progressId uid revision)) k
  = prop (default ∅ (store w !! progressId uid revision)) k.
Proof.
  intros Hget Hk. rewrite lookup_insert. case_decide as E; [|reflexivity].
  rewrite <- E, Hget. cbn [default from_option id]. apply completed_day_scores, Hk.
Qed.

End Objects.

Section Effects.
Context {rt : Runtime}.

Lemma new_writes_two w a b st c r :
  new_writes w {| store := st; writes := (writes w ++ [a]) ++ [b]; clock := c; reads := r |}
  = [a; b].
Proof. unfold new_writes. cbn [writes]. rewrite <- app_assoc. apply drop_app_length. Qed.

Lemma new_writes_none w : new_writes w w = [].
Proof. unfold new_writes. apply drop_all. Qed.

Lemma mastery_of_run st updated progress :
  mastery_of (Json st (assign ∅ [("revision", VObj updated); ("progress", VObj progress)]))
  = prop progress "mastery_level".
Proof.
  unfold mastery_of, assign. cbn [fold_left fst snd]. unfold prop at 1.
  rewrite lookup_insert_eq. reflexivity.
Qed.

Lemma mergeProgress_mastery existing uid revision recallScore now :
  prop (mergeProgress existing uid revision recallScore now) "mastery_level"
  = VStr (level_name (calculateMasteryLevel existing (prop revision "revision_day") recallScore)).
Proof.
  unfold prop at 1. rewrite mergeProgress_lookup.
  case_decide; [discriminate|]. case_decide; [reflexivity|congruence].
Qed.

Lemma calculateMasteryLevel_empty day score : calculateMasteryLevel ∅ day score = weak.
Proof.
  unfold calculateMasteryLevel, prop. rewrite !lookup_empty. cbn [default from_option id js_or truthy].
  replace (js_ge (VNum (of_Z 0)) 80) with false by reflexivity.
  replace (js_ge (VNum (of_Z 0)) 70) with false by reflexivity.
  replace (js_ge (VNum (of_Z 0)) 60) with false by reflexivity.
  rewrite !andb_false_r. reflexivity.
Qed.

Lemma level_name_inj l l' : level_name l = level_name l' -> l = l'.
Proof. destruct l, l'; (reflexivity || discriminate). Qed.

Lemma calculateMasteryLevel_mastered p day score :
  calculateMasteryLevel p day score = mastered ->
  strict_eq day (VNum (of_Z 7)) = true
  /\ exists v, p !! "day7_score" = Some v /\ js_ge v 80 = true.
Proof.
  unfold calculateMasteryLevel.
  destruct (strict_eq day (VNum (of_Z 7))) eqn:Hday; cbn [andb].
  - destruct (js_ge (js_or (prop p "day7_score") (VNum (of_Z 0))) 80) eqn:H7.
    + intros _. split; [reflexivity|]. unfold prop in H7.
      destruct (p !! "day7_score") as [v|]; cbn [default from_option id] in H7; [|discriminate H7].
      exists v. split; [reflexivity|]. unfold js_or in H7.
      destruct (truthy v); [exact H7|discriminate H7].
    + repeat match goal with |- context [if ?b then _ else _] => destruct b end; discriminate.
  - repeat match goal with |- context [if ?b then _ else _] => destruct b end; discriminate.
Qed.

Lemma apply_writes_app l1 l2 st :
  apply_writes (l1 ++ l2) st = apply_writes l2 (apply_writes l1 st).
Proof. unfold apply_writes. apply fold_left_app. Qed.

(** Keys that are not written keep their record. *)
Lemma apply_writes_frame l : forall st k,
  ~ In k (map fst l) -> apply_writes l st !! k = st !! k.
Proof.
  induction l as [|[k' v] l IH]; intros st k Hk; [reflexivity|].
  cbn in Hk |- *. fold (apply_writes l (<[k' := v]> st)).
  rewrite IH by tauto. apply lookup_insert_ne. tauto.
Qed.

Lemma new_writes_app w W st c r :
  new_writes w {| store := st; writes := writes w ++ W; clock := c; reads := r |} = W.
Proof. unfold new_writes. cbn [writes]. apply drop_app_length. Qed.

Lemma scheduleRevision_key uid diagnostic now day :
  day = 1 \/ day = 3 \/ day = 7 ->
  (scheduleRevision uid diagnostic now day).1 = revisionKey uid diagnostic day.
Proof. intros [-> | [-> | ->]]; reflexivity. Qed.

Lemma revisionKey_inj uid diagnostic d1 d2 :
  (d1 = 1 \/ d1 = 3 \/ d1 = 7) -> (d2 = 1 \/ d2 = 3 \/ d2 = 7) ->
  revisionKey uid diagnostic d1 = revisionKey uid diagnostic d2 -> d1 = d2.
Proof.
  unfold revisionKey. intros H1 H2 E.
  do 4 apply append_inj_l in E.
  destruct H1 as [-> | [-> | ->]], H2 as [-> | [-> | ->]];
    (reflexivity || (vm_compute in E; discriminate E)).
Qed.

Lemma scheduleRevision_lookup uid diagnostic now day k :
  (scheduleRevision uid diagnostic now day).2 !! k
  = if decide (k = "completed") then Some (VBool false)
    else if decide (k = "scheduled_date")
         then Some (VStr (toISOString (addCalendarDays now day)))
    else if decide (k = "revision_day") then Some (VNum (of_Z day))
    else if decide (k = "subject") then Some (prop diagnostic "subject")
    else if decide (k = "topic") then Some (prop diagnostic "topic")
    else if decide (k = "user_id") then Some (VStr uid)
    else None.
Proof.
  unfold scheduleRevision, assign. cbn [fold_left fst snd].
  rewrite setDate_getDate, !lookup_insert, lookup_empty.
  repeat case_decide; congruence.
Qed.

(** After the scheduling loop the store holds the three new records. *)
Lemma apply_writes_revisions uid diagnostic now pre st day :
  day = 1 \/ day = 3 \/ day = 7 ->
  apply_writes (pre ++ map (scheduleRevision uid diagnostic now) revisionDays) st
  !! revisionKey uid diagnostic day
  = Some (scheduleRevision uid diagnostic now day).2.
Proof.
  intros Hd. rewrite apply_writes_app. unfold revisionDays, apply_writes at 1.
  cbn [map fold_left].
  rewrite !scheduleRevision_key by tauto.
  rewrite !lookup_insert.
  assert (forall d1 d2, (d1 = 1 \/ d1 = 3 \/ d1 = 7) -> (d2 = 1 \/ d2 = 3 \/ d2 = 7) ->
                        d1 <> d2 ->
                        revisionKey uid diagnostic d1 <> revisionKey uid diagnostic d2) as Hne.
  { intros d1 d2 H1 H2 Hd12 E. apply Hd12. eapply revisionKey_inj; eassumption. }
  destruct Hd as [-> | [-> | ->]].
  - rewrite (decide_False (P := _ 7 = _ 1)) by (apply Hne; tauto || lia).
    rewrite (decide_False (P := _ 3 = _ 1)) by (apply Hne; tauto || lia).
    rewrite (decide_True (P := _ 1 = _ 1)) by reflexivity. reflexivity.
  - rewrite (decide_False (P := _ 7 = _ 3)) by (apply Hne; tauto || lia).
    rewrite (decide_True (P := _ 3 = _ 3)) by reflexivity. reflexivity.
  - rewrite (decide_True (P := _ 7 = _ 7)) by reflexivity. reflexivity.
Qed.



End Effects.

(* ===================================================================== *)
(** ** The properties of the specification *)
(* ===================================================================== *)

(** C1. [calculateMasteryLevel] classifies from the stored day scores as
    section 4.2 words it, with missing days defaulting to 0 and the
    thresholds 80, 70 and 60 compared literally: the code, which defaults
    with [||] and tests the day with [===] and [>=], returns what
    [computeMasteryLevel] returns, for every stored record, every day (in
    particular 1, 3 and 7) and every new score. *)
Theorem calculateMasteryLevel_classifies {rt : Runtime} (existingProgress : obj) (revisionDayJustCompleted : Z) (newScore : jsval) :
  calculateMasteryLevel existingProgress (VNum (of_Z revisionDayJustCompleted)) newScore
  = computeMasteryLevel existingProgress revisionDayJustCompleted newScore.
Proof.
  unfold calculateMasteryLevel, computeMasteryLevel.
  rewrite !(js_ge_or_nullish _ _) by lia.
  unfold strict_eq. rewrite !num_eq_of_Z.
  unfold js_ge at 2. cbn [ToNumber]. rewrite num_ge_of_Z. reflexivity.
Qed.

(** The four cases of section 8. *)
Example mastery_learning :
  calculateMasteryLevel (rt := Scenario.utc)
    (assign ∅ [("day1_score", VNum (of_Z 60)); ("day3_score", VNum (of_Z 0));
               ("day7_score", VNum (of_Z 0))])
    (VNum (of_Z 1)) VUndef = learning.
Proof. reflexivity. Qed.

Example mastery_improving :
  calculateMasteryLevel (rt := Scenario.utc)
    (assign ∅ [("day1_score", VNum (of_Z 60)); ("day3_score", VNum (of_Z 70))])
    (VNum (of_Z 3)) VUndef = improving.
Proof. reflexivity. Qed.

Example mastery_mastered :
  calculateMasteryLevel (rt := Scenario.utc)
    (assign ∅ [("day1_score", VNum (of_Z 60)); ("day3_score", VNum (of_Z 70));
               ("day7_score", VNum (of_Z 80))])
    (VNum (of_Z 7)) VUndef = mastered.
Proof. reflexivity. Qed.

Example mastery_weak :
  calculateMasteryLevel (rt := Scenario.utc)
    (assign ∅ [("day1_score", VNum (of_Z 50))]) (VNum (of_Z 1)) VUndef = weak.
Proof. reflexivity. Qed.



(** [GET /revisions] applies the filter to what [getByPrefix] returns,
    with the date part of the clock as [today]. *)
Lemma revisions_get_run (uid : string) (w : world) :
  let allRevisions := default [] (kv_getByPrefix ("revision:" +:+ uid) w).1 in
  let today := split0 "T" (toISOString (clock w (reads w))) in
  (revisions_get (Some uid) w).1
  = match dueRevisions today allRevisions with
    | Some due => Json 200 (assign ∅ [("revisions", VArr (map VObj due))])
    | None => Json 500 (error "Failed to fetch revisions")
    end.
Proof.
  unfold revisions_get, try_catch, getRevisions, bind, kv_getByPrefix, new_Date.
  cbn [fst default from_option id]. destruct (dueRevisions _ _); reflexivity.
Qed.

(** C3. For every list of revisions and every as-of time, in the years
    that ISO strings write with four digits, the filter returns exactly
    the revisions whose scheduled calendar date is not after the calendar
    date of the as-of time and that are not completed, in the order of the
    input; a completed revision is never returned. Each revision comes
    with the time its [scheduled_date] was printed from. *)
Theorem due_revisions_filter (sched : list (Z * obj)) (now : Z) :
  fourDigitYear now ->
  Forall (fun tr => fourDigitYear tr.1
                    /\ tr.2 !! "scheduled_date" = Some (VStr (toISOString tr.1))) sched ->
  let dueNow := fun tr : Z * obj => due tr.1 now (truthy (prop tr.2 "completed")) in
  dueRevisions (split0 "T" (toISOString now)) (map snd sched)
  = Some (map snd (List.filter dueNow sched))
  /\ Forall (fun r => truthy (prop r "completed") = false)
            (map snd (List.filter dueNow sched)).
Proof.
  intros Hnow Hall dueNow. split.
  - induction Hall as [|[t r] sched [Ht Hr] Hall IH]; [reflexivity|].
    cbn [map snd dueRevisions List.filter]. unfold isDue, prop at 1.
    cbn [fst snd] in Ht, Hr. rewrite Hr. cbn [default from_option id].
    rewrite (str_le_date_part _ _ Ht Hnow), IH.
    subst dueNow. cbn [fst snd]. unfold due.
    destruct ((Day t <=? Day now) && negb (truthy (prop r "completed"))); reflexivity.
  - apply List.Forall_forall. intros r Hin. apply in_map_iff in Hin as ([t r'] & <- & Hin).
    apply filter_In in Hin as [_ Hd]. subst dueNow. cbn [fst snd] in Hd |- *.
    unfold due in Hd. apply andb_true_iff in Hd as [_ Hd].
    apply negb_true_iff in Hd. exact Hd.
Qed.

Lemma due_revisions_filter_witness :
  (fourDigitYear Scenario.nextDay
   /\ Forall (fun tr => fourDigitYear tr.1
                        /\ tr.2 !! "scheduled_date" = Some (VStr (toISOString tr.1)))
             Scenario.schedule)
  /\ dueRevisions (split0 "T" (toISOString Scenario.nextDay)) (map snd Scenario.schedule)
     = Some [Scenario.revision 1].
Proof.
  assert (fourDigitYear Scenario.nextDay) as H1 by (vm_compute; split; discriminate).
  assert (Forall (fun tr => fourDigitYear tr.1
                            /\ tr.2 !! "scheduled_date" = Some (VStr (toISOString tr.1)))
                 Scenario.schedule) as H2.
  { repeat constructor; try (vm_compute; discriminate); vm_compute; reflexivity. }
  split; [tauto|].
  rewrite (proj1 (due_revisions_filter Scenario.schedule Scenario.nextDay H1 H2)).
  vm_compute. reflexivity.
Defined.


(** The scenario of section 8, continued: two days after the first
    submission only its day-1 revision is due. *)
Example due_after_first_submission :
  (revisions_get (Some Scenario.uid) Scenario.w1).1
  = Json 200 (assign ∅ [("revisions", VArr [VObj (Scenario.revision 1)])]).
Proof. vm_compute. reflexivity. Qed.

(** Completing the day-1 revision of the scenario twice: the second
    request succeeds and its recall score replaces the first. *)
Example complete_twice :
  let once := revisions_complete (rt := Scenario.utc) (Some Scenario.uid) Scenario.day1Key
                (VNum (of_Z 6)) Scenario.w1 in
  let twice := revisions_complete (rt := Scenario.utc) (Some Scenario.uid) Scenario.day1Key
                 (VNum (of_Z 9)) once.2 in
  status_of once.1 = 200 /\ status_of twice.1 = 200
  /\ Scenario.recall_score_at once.2 Scenario.day1Key = Some (VNum (of_Z 6))
  /\ Scenario.recall_score_at twice.2 Scenario.day1Key = Some (VNum (of_Z 9)).
Proof. vm_compute. repeat split; reflexivity. Qed.

(** C5. The mastery level does not depend on the score just submitted:
    [calculateMasteryLevel] returns the same level for any two new scores,
    and so does the route, whose [progress.mastery_level] is the same for
    any two recall scores in the same world. *)
Theorem mastery_ignores_new_score {rt : Runtime} (existingProgress : obj) (day s1 s2 : jsval) (user : option string) (revisionId : string) (w : world) :
  calculateMasteryLevel existingProgress day s1 = calculateMasteryLevel existingProgress day s2
  /\ mastery_of (revisions_complete user revisionId s1 w).1
     = mastery_of (revisions_complete user revisionId s2 w).1.
Proof.
  split; [reflexivity|].
  destruct user as [uid|]; [|reflexivity].
  destruct (store w !! revisionId) as [revision|] eqn:Hget.
  - destruct (strict_eq (prop revision "user_id") (VStr uid)) eqn:Hown.
    + rewrite !(revisions_complete_run _ _ _ _ _ Hget Hown). cbn [fst].
      rewrite !mastery_of_run, !mergeProgress_mastery.
      do 2 f_equal.
      apply calculateMasteryLevel_ext;
        rewrite !(existing_day_scores _ _ _ _ _ _ Hget) by tauto; reflexivity.
    + rewrite !(revisions_complete_foreign _ _ _ _ _ Hget Hown). reflexivity.
  - rewrite !(revisions_complete_missing _ _ _ _ Hget). reflexivity.
Qed.

(** C6, as the specification states it, fails: a recall score of 11,
    outside 1..10, is accepted with status 200 and stored unchanged. *)
Lemma recall_score_out_of_range_accepted :
  let out := revisions_complete (rt := Scenario.utc) (Some Scenario.uid) Scenario.day1Key
               (VNum (of_Z 11)) Scenario.w1 in
  status_of out.1 = 200
  /\ Scenario.recall_score_at out.2 Scenario.day1Key = Some (VNum (of_Z 11))
  /\ ~ (1 <= 11 <= 10).
Proof. cbv zeta. split; [|split]; [vm_compute; reflexivity | vm_compute; reflexivity | lia]. Qed.

(** C6, amended. The route does not validate the recall score: the
    status of the answer is the same for any two recall scores; a request
    fails only with 401 or 404, writing nothing; and on success the first
    record written is the revision with the recall score exactly as it
    was supplied. *)
Theorem recall_score_stored_as_supplied {rt : Runtime} (user : option string) (revisionId : string) (s1 s2 : jsval) (w : world) :
  let out := revisions_complete user revisionId s1 w in
  status_of out.1 = status_of (revisions_complete user revisionId s2 w).1
  /\ ((status_of out.1 = 401 \/ status_of out.1 = 404) /\ out.2 = w
      \/ status_of out.1 = 200
         /\ exists revision,
             store w !! revisionId = Some revision
             /\ hd_error (new_writes w out.2)
                = Some (revisionId, completed revision s1 (clock w (reads w)))
             /\ completed revision s1 (clock w (reads w)) !! "recall_score" = Some s1).
Proof.
  intros out. subst out.
  destruct user as [uid|]; [|split; [reflexivity|]; left; split; [left|]; reflexivity].
  destruct (store w !! revisionId) as [revision|] eqn:Hget.
  - destruct (strict_eq (prop revision "user_id") (VStr uid)) eqn:Hown.
    + rewrite !(revisions_complete_run _ _ _ _ _ Hget Hown). cbn [fst snd status_of].
      split; [reflexivity|]. right. split; [reflexivity|]. exists revision.
      split; [reflexivity|]. rewrite new_writes_two. split; [reflexivity|].
      rewrite completed_lookup. reflexivity.
    + rewrite !(revisions_complete_foreign _ _ _ _ _ Hget Hown). cbn [fst snd status_of].
      split; [reflexivity|]. left. split; [right|]; reflexivity.
  - rewrite !(revisions_complete_missing _ _ _ _ Hget). cbn [fst snd status_of].
    split; [reflexivity|]. left. split; [right|]; reflexivity.
Qed.

(** C7, as the specification states it, fails: after a second submission
    on the same topic the day-1 record of the first cohort is gone, the key
    holds the record of the second cohort, and the store holds three
    revisions of the user, not six. *)
Lemma second_cohort_replaces_first :
  Scenario.scheduled_at Scenario.w1 Scenario.day1Key = Some (VStr "2025-11-04T03:00:00.126Z")
  /\ Scenario.scheduled_at Scenario.w2 Scenario.day1Key
     = Some (VStr "2025-11-06T03:00:00.130Z")
  /\ store Scenario.w2 !! Scenario.day1Key <> store Scenario.w1 !! Scenario.day1Key
  /\ length (Scenario.revisions_of Scenario.w1) = 3%nat
  /\ length (Scenario.revisions_of Scenario.w2) = 3%nat.
Proof.
  assert (Scenario.scheduled_at Scenario.w1 Scenario.day1Key
          = Some (VStr "2025-11-04T03:00:00.126Z")) as H1 by (vm_compute; reflexivity).
  assert (Scenario.scheduled_at Scenario.w2 Scenario.day1Key
          = Some (VStr "2025-11-06T03:00:00.130Z")) as H2 by (vm_compute; reflexivity).
  repeat split; try assumption; try (vm_compute; reflexivity).
  intros E. unfold Scenario.scheduled_at in H1, H2. rewrite E, H1 in H2. discriminate H2.
Qed.

(** C7, amended. The revisions of a topic are stored under the keys
    [revision:<user>:<topic>:day1], [...:day3] and [...:day7]: after a
    submission each of the three keys holds the newly scheduled record,
    whatever it held before, and every key that the submission does not
    write keeps its record. *)
Theorem resubmission_replaces_revisions {rt : Runtime} (uid diagnosticId : string) (answers timeTaken confidence : jsval) (w : world) (diagnostic : obj) (questions : list jsval) (correct : Z) :
  store w !! diagnosticId = Some diagnostic ->
  strict_eq (prop diagnostic "user_id") (VStr uid) = true ->
  prop diagnostic "questions" = VArr questions ->
  countCorrect questions answers 0 0 = Some correct ->
  let out := diagnostic_submit (Some uid) diagnosticId answers timeTaken confidence w in
  let anchor := anchorTime confidence questions correct w in
  (forall day, day = 1 \/ day = 3 \/ day = 7 ->
     store out.2 !! revisionKey uid diagnostic day
     = Some (scheduleRevision uid diagnostic anchor day).2)
  /\ (forall k,
        ~ In k (map fst (submit_writes uid diagnosticId timeTaken confidence
                                       diagnostic questions correct w)) ->
        store out.2 !! k = store w !! k).
Proof.
  intros Hget Hown Hq Hc out anchor. subst out.
  rewrite (diagnostic_submit_run _ _ _ _ _ _ _ _ _ Hget Hown Hq Hc). cbn [snd store].
  split.
  - intros day Hd. unfold submit_writes. apply apply_writes_revisions, Hd.
  - intros k Hk. apply apply_writes_frame, Hk.
Qed.

Lemma resubmission_replaces_revisions_witness :
  (store Scenario.w1 !! Scenario.second = Some (Scenario.diagnostic Scenario.second)
   /\ strict_eq (prop (Scenario.diagnostic Scenario.second) "user_id") (VStr Scenario.uid) = true
   /\ prop (Scenario.diagnostic Scenario.second) "questions" = VArr Scenario.questions
   /\ countCorrect Scenario.questions Scenario.answers 0 0 = Some 5)
  /\ store Scenario.w2 !! Scenario.day1Key
     = Some (scheduleRevision (rt := Scenario.utc) Scenario.uid
               (Scenario.diagnostic Scenario.second) (Scenario.clock0 7) 1).2.
Proof.
  assert (store Scenario.w1 !! Scenario.second = Some (Scenario.diagnostic Scenario.second))
    as H1 by (vm_compute; reflexivity).
  assert (strict_eq (prop (Scenario.diagnostic Scenario.second) "user_id") (VStr Scenario.uid)
          = true) as H2 by reflexivity.
  assert (prop (Scenario.diagnostic Scenario.second) "questions" = VArr Scenario.questions)
    as H3 by reflexivity.
  assert (countCorrect Scenario.questions Scenario.answers 0 0 = Some 5) as H4 by reflexivity.
  split; [tauto|].
  exact (proj1 (resubmission_replaces_revisions (rt := Scenario.utc) Scenario.uid
                  Scenario.second Scenario.answers Scenario.timeTaken Scenario.confidence
                  Scenario.w1 _ _ _ H1 H2 H3 H4) 1 (or_introl eq_refl)).
Defined.

(** C8. Completing a revision of day N, for N in 1, 3, 7, with recall
    score s merges into the stored progress record of the topic (the empty
    record when there is none): the record written has [day{N}_score = s],
    the other two day-score fields as they were stored, the mastery level
    recomputed from the stored record and the update time; when the
    revision and the progress record are different records, every field
    that the merge does not assign is kept as well. *)
Theorem progress_merge_keeps_other_days {rt : Runtime} (uid revisionId : string) (recallScore : jsval) (w : world) (revision : obj) (N : Z) :
  store w !! revisionId = Some revision ->
  strict_eq (prop revision "user_id") (VStr uid) = true ->
  prop revision "revision_day" = VNum (of_Z N) ->
  N = 1 \/ N = 3 \/ N = 7 ->
  let existing := default ∅ (store w !! progressId uid revision) in
  exists progress,
    store (revisions_complete (Some uid) revisionId recallScore w).2 !! progressId uid revision
    = Some progress
    /\ progress !! dayKey N = Some recallScore
    /\ (forall M, M = 1 \/ M = 3 \/ M = 7 -> M <> N ->
                  progress !! dayKey M = existing !! dayKey M)
    /\ progress !! "mastery_level"
       = Some (VStr (level_name (calculateMasteryLevel existing (VNum (of_Z N)) recallScore)))
    /\ progress !! "updated_at" = Some (VStr (toISOString (clock w (S (reads w)))))
    /\ (revisionId <> progressId uid revision ->
        forall k, k <> "user_id" -> k <> "topic" -> k <> "subject" -> k <> dayKey N ->
                  k <> "mastery_level" -> k <> "updated_at" ->
                  progress !! k = existing !! k).
Proof.
  intros Hget Hown Hday HN existing.
  rewrite (revisions_complete_run _ _ _ _ _ Hget Hown). cbn [snd store].
  eexists. split; [apply lookup_insert_eq|].
  assert (forall k, k = "day1_score" \/ k = "day3_score" \/ k = "day7_score" ->
                    default ∅ (<[revisionId := completed revision recallScore
                                                           (clock w (reads w))]>
                                 (store w) !! progressId uid revision) !! k
                    = existing !! k) as Hex.
  { intros k Hk. subst existing. rewrite lookup_insert. case_decide as Eid; [|reflexivity].
    rewrite <- Eid, Hget. cbn [default from_option id]. rewrite completed_lookup.
    destruct Hk as [-> | [-> | ->]]; reflexivity. }
  rewrite !mergeProgress_lookup, Hday, (dayKey_ToString N HN).
  split; [|split; [|split; [|split]]].
  - destruct HN as [-> | [-> | ->]]; reflexivity.
  - intros M HM HMN. rewrite mergeProgress_lookup, Hday, (dayKey_ToString N HN).
    destruct HN as [-> | [-> | ->]], HM as [-> | [-> | ->]]; try congruence;
      cbn [decide]; apply Hex; tauto.
  - cbn. f_equal. f_equal. f_equal.
    apply calculateMasteryLevel_ext; unfold prop; rewrite Hex by tauto; reflexivity.
  - reflexivity.
  - intros Hne k H1 H2 H3 H4 H5 H6.
    rewrite mergeProgress_lookup, Hday, (dayKey_ToString N HN).
    repeat (case_decide; [congruence|]).
    subst existing. rewrite lookup_insert_ne by exact Hne. reflexivity.
Qed.

Lemma progress_merge_keeps_other_days_witness :
  (store Scenario.w1 !! Scenario.day1Key = Some (Scenario.revision 1)
   /\ strict_eq (prop (Scenario.revision 1) "user_id") (VStr Scenario.uid) = true
   /\ prop (Scenario.revision 1) "revision_day" = VNum (of_Z 1)
   /\ (1 = 1 \/ 1 = 3 \/ 1 = 7))
  /\ exists progress,
       store (revisions_complete (rt := Scenario.utc) (Some Scenario.uid) Scenario.day1Key
                (VNum (of_Z 6)) Scenario.w1).2
       !! "progress:u1:Thermodynamics" = Some progress
       /\ progress !! "day1_score" = Some (VNum (of_Z 6))
       /\ progress !! "day3_score" = None
       /\ progress !! "mastery_level" = Some (VStr "weak").
Proof.
  assert (store Scenario.w1 !! Scenario.day1Key = Some (Scenario.revision 1)) as H1
    by (vm_compute; reflexivity).
  assert (strict_eq (prop (Scenario.revision 1) "user_id") (VStr Scenario.uid) = true) as H2
    by reflexivity.
  assert (prop (Scenario.revision 1) "revision_day" = VNum (of_Z 1)) as H3 by reflexivity.
  assert (1 = 1 \/ 1 = 3 \/ 1 = 7) as H4 by (left; reflexivity).
  split; [tauto|].
  destruct (progress_merge_keeps_other_days (rt := Scenario.utc) Scenario.uid
              Scenario.day1Key (VNum (of_Z 6)) Scenario.w1 _ 1 H1 H2 H3 H4)
    as (progress & Hst & Hd1 & Hother & Hlevel & _).
  exists progress. split; [exact Hst|]. split; [exact Hd1|]. split.
  - refine (eq_trans (Hother 3 _ _) _); [tauto | lia | vm_compute; reflexivity].
  - rewrite Hlevel. vm_compute. reflexivity.
Defined.



(** C10. When no progress record is stored for the topic, completing a
    revision creates the progress record of the topic with the mastery
    level "weak", whatever the day and the recall score, and answers that
    record. In every case the record stored under the progress key
    afterwards is the one of the answer, and the level "mastered" is
    reached only by completing a day-7 revision when the stored progress
    record already holds a day-7 score of at least 80. *)
Theorem first_completion_is_weak {rt : Runtime} (uid revisionId : string) (recallScore : jsval) (w : world) (revision : obj) :
  store w !! revisionId = Some revision ->
  strict_eq (prop revision "user_id") (VStr uid) = true ->
  let out := revisions_complete (Some uid) revisionId recallScore w in
  let level := mastery_of out.1 in
  (store w !! progressId uid revision = None ->
   level = VStr "weak"
   /\ exists progress,
        store out.2 !! progressId uid revision = Some progress
        /\ prop progress "mastery_level" = VStr "weak")
  /\ (exists progress,
        store out.2 !! progressId uid revision = Some progress
        /\ Views.field_of out.1 "progress" = VObj progress
        /\ prop progress "mastery_level" = level)
  /\ (level = VStr "mastered" ->
      strict_eq (prop revision "revision_day") (VNum (of_Z 7)) = true
      /\ exists p v, store w !! progressId uid revision = Some p
                     /\ p !! "day7_score" = Some v /\ js_ge v 80 = true).
Proof.
  intros Hget Hown out level. subst level out.
  rewrite (revisions_complete_run _ _ _ _ _ Hget Hown). cbn [fst snd store].
  rewrite mastery_of_run, mergeProgress_mastery. split; [|split].
  - intros Hnone. rewrite lookup_insert_ne by congruence. rewrite Hnone.
    cbn [default from_option id]. rewrite calculateMasteryLevel_empty.
    split; [reflexivity|]. eexists. split; [apply lookup_insert_eq|].
    rewrite mergeProgress_mastery, calculateMasteryLevel_empty. reflexivity.
  - eexists. split; [apply lookup_insert_eq|]. split.
    + unfold Views.field_of, prop, assign. cbn [fold_left fst snd].
      rewrite lookup_insert_eq. reflexivity.
    + apply mergeProgress_mastery.
  - intros E. injection E as E. apply (level_name_inj _ mastered) in E.
    apply calculateMasteryLevel_mastered in E as (Hday & v & Hv & Hge).
    split; [exact Hday|]. rewrite lookup_insert in Hv. case_decide as Eid.
    + cbn [default from_option id] in Hv. rewrite completed_lookup in Hv.
      repeat (case_decide; [discriminate|]).
      exists revision, v. rewrite <- Eid. auto.
    + destruct (store w !! progressId uid revision) as [p|];
        cbn [default from_option id] in Hv.
      * exists p, v. auto.
      * rewrite lookup_empty in Hv. discriminate Hv.
Qed.

Lemma first_completion_is_weak_witness :
  (store Scenario.w1 !! Scenario.day1Key = Some (Scenario.revision 1)
   /\ strict_eq (prop (Scenario.revision 1) "user_id") (VStr Scenario.uid) = true)
  /\ store Scenario.w1 !! "progress:u1:Thermodynamics" = None
  /\ mastery_of (revisions_complete (rt := Scenario.utc) (Some Scenario.uid) Scenario.day1Key
                   (VNum (of_Z 6)) Scenario.w1).1
     = VStr "weak"
  /\ exists progress,
       store (revisions_complete (rt := Scenario.utc) (Some Scenario.uid) Scenario.day1Key
                (VNum (of_Z 6)) Scenario.w1).2
       !! "progress:u1:Thermodynamics" = Some progress
       /\ prop progress "mastery_level" = VStr "weak".
Proof.
  assert (store Scenario.w1 !! Scenario.day1Key = Some (Scenario.revision 1)) as H1
    by (vm_compute; reflexivity).
  assert (strict_eq (prop (Scenario.revision 1) "user_id") (VStr Scenario.uid) = true) as H2
    by reflexivity.
  assert (store Scenario.w1
          !! progressId (rt := Scenario.utc) Scenario.uid (Scenario.revision 1) = None) as H3
    by (vm_compute; reflexivity).
  split; [tauto|]. split; [exact H3|].
  exact (proj1 (first_completion_is_weak (rt := Scenario.utc) Scenario.uid Scenario.day1Key
                  (VNum (of_Z 6)) Scenario.w1 _ H1 H2) H3).
Defined.

(* ===================================================================== *)
(** * Further properties of the server *)
(* ===================================================================== *)

Import OtherRoutes Views.

(** ** What [getByPrefix] finds *)

Lemma kv_getByPrefix_under prefix w : kv_getByPrefix prefix w = (Some (under prefix (store w)), w).
Proof. reflexivity. Qed.

(** [getByPrefix] finds exactly the records stored under a key that
    starts with the prefix. *)
Lemma under_elem prefix (st : gmap string obj) (v : obj) :
  In v (under prefix st) <-> exists k, startsWith k prefix = true /\ st !! k = Some v.
Proof.
  unfold under. rewrite in_map_iff. split.
  - intros ([k v'] & <- & Hin). apply list_elem_of_In, list_elem_of_filter in Hin as [Hp Hin].
    apply elem_of_map_to_list in Hin. exists k. split; [|exact Hin].
    cbn [fst] in Hp. apply Is_true_true. exact Hp.
  - intros (k & Hp & Hk). exists (k, v). split; [reflexivity|].
    apply list_elem_of_In, list_elem_of_filter. split.
    + cbn [fst]. apply Is_true_true. exact Hp.
    + apply elem_of_map_to_list. exact Hk.
Qed.

Lemma under_cons prefix k (v : obj) (l : list (string * obj)) :
  map snd (filter (fun kv => Is_true (startsWith kv.1 prefix)) ((k, v) :: l))
  = (if startsWith k prefix then [v] else [])
    ++ map snd (filter (fun kv => Is_true (startsWith kv.1 prefix)) l).
Proof.
  rewrite filter_cons. cbn [fst]. destruct (startsWith k prefix) eqn:E.
  - rewrite decide_True by (cbn; exact I). reflexivity.
  - rewrite decide_False by (cbn; tauto). reflexivity.
Qed.

(** Writing a key: what is found under a prefix afterwards, up to order. *)
Lemma under_insert prefix k (v : obj) (st : gmap string obj) :
  under prefix (<[k := v]> st)
  ≡ₚ (if startsWith k prefix then [v] else []) ++ under prefix (delete k st).
Proof.
  unfold under. rewrite <- under_cons. apply fmap_Permutation, filter_Permutation.
  rewrite <- insert_delete_eq. apply map_to_list_insert, lookup_delete_eq.
Qed.

Lemma under_lookup prefix k (v : obj) (st : gmap string obj) :
  st !! k = Some v ->
  under prefix st
  ≡ₚ (if startsWith k prefix then [v] else []) ++ under prefix (delete k st).
Proof.
  intros Hk. unfold under. rewrite <- under_cons. apply fmap_Permutation, filter_Permutation.
  symmetry. apply map_to_list_delete, Hk.
Qed.

Lemma under_fresh prefix k (st : gmap string obj) :
  st !! k = None -> under prefix (delete k st) = under prefix st.
Proof. intros Hk. rewrite delete_id by exact Hk. reflexivity. Qed.

Lemma filter_length_Permutation (P : obj -> bool) (l l' : list obj) :
  l ≡ₚ l' -> length (List.filter P l) = length (List.filter P l').
Proof.
  induction 1 as [|x l l' _ IH|x y l|l l' l'' _ IH1 _ IH2]; cbn.
  - reflexivity.
  - destruct (P x); cbn; congruence.
  - destruct (P x), (P y); reflexivity.
  - congruence.
Qed.

(** ** The revisions of a user and the dashboard *)

(** What the filter keeps, and when it throws. *)
Lemma dueRevisions_Some today : forall (l due : list obj),
  dueRevisions today l = Some due ->
  forall r, In r due <-> In r l /\ isDue today r = Some true.
Proof.
  induction l as [|x l IH]; cbn [dueRevisions]; intros due Hd r.
  - injection Hd as <-. cbn. tauto.
  - destruct (isDue today x) as [b|] eqn:Hx; [|discriminate Hd].
    destruct (dueRevisions today l) as [due'|]; [|discriminate Hd].
    injection Hd as <-. specialize (IH due' eq_refl r).
    destruct b; cbn [In]; rewrite IH; split.
    + intros [<-|[H1 H2]]; auto.
    + intros [[<-|H1] H2]; auto.
    + intros [H1 H2]. auto.
    + intros [[<-|H1] H2]; [congruence|auto].
Qed.

Lemma dueRevisions_None today : forall (l : list obj),
  dueRevisions today l = None <-> exists r, In r l /\ isDue today r = None.
Proof.
  induction l as [|x l IH]; cbn [dueRevisions].
  - split; [discriminate|]. intros (r & [] & _).
  - destruct (isDue today x) as [b|] eqn:Hx.
    + destruct (dueRevisions today l) as [due'|].
      * split; [discriminate|]. intros (r & [<-|Hin] & Hr); [congruence|].
        destruct IH as [_ IH]. discriminate (IH (ex_intro _ r (conj Hin Hr))).
      * split; [|reflexivity]. intros _. destruct IH as [IH _].
        destruct (IH eq_refl) as (r & Hin & Hr). exists r. cbn. auto.
    + split; [|reflexivity]. intros _. exists x. cbn. auto.
Qed.

Lemma revisions_get_world uid w :
  (revisions_get (Some uid) w).2
  = {| store := store w; writes := writes w; clock := clock w; reads := S (reads w) |}.
Proof.
  unfold revisions_get, try_catch, getRevisions, bind, kv_getByPrefix, new_Date.
  destruct (dueRevisions _ _); reflexivity.
Qed.

Lemma route_dashboard_run uid w :
  let today := split0 "T" (toISOString (clock w (reads w))) in
  let revisions := under ("revision:" +:+ uid) (store w) in
  route_dashboard (Some uid) w
  = (match dueRevisions today revisions with
     | Some due =>
         Json 200 (assign ∅ [("weakConceptsCount", count (under ("weak:" +:+ uid) (store w)));
                             ("upcomingRevisionsCount", count due);
                             ("masteryProgress", count (under ("progress:" +:+ uid) (store w)));
                             ("streak", VNum (of_Z (Z.min (Z.of_nat (completedCount uid (store w))) 7)))])
     | None => Json 500 (error "Failed to fetch dashboard")
     end,
     {| store := store w; writes := writes w; clock := clock w; reads := S (reads w) |}).
Proof.
  unfold route_dashboard, try_catch, getDashboard, bind, kv_getByPrefix, new_Date.
  cbn [fst snd store writes clock reads]. fold (under ("revision:" +:+ uid) (store w)).
  destruct (dueRevisions _ _); reflexivity.
Qed.

(** X1. [GET /revisions] for an authenticated user writes nothing: the
    store and the log of writes are as before. It answers 200 with exactly
    the records that are stored under a key starting with
    [revision:<user id>] and are due on the day of the clock reading of
    the request; or it answers 500, and then one of the records under that
    prefix has a [scheduled_date] that is not a string. *)
Theorem revisions_get_returns (uid : string) (w : world) :
  let today := split0 "T" (toISOString (clock w (reads w))) in
  let prefix := "revision:" +:+ uid in
  let out := revisions_get (Some uid) w in
  store out.2 = store w /\ writes out.2 = writes w
  /\ ((exists due,
         out.1 = Json 200 (assign ∅ [("revisions", VArr (map VObj due))])
         /\ forall r, In r due
                      <-> exists k, startsWith k prefix = true /\ store w !! k = Some r
                                    /\ isDue today r = Some true)
      \/ (out.1 = Json 500 (error "Failed to fetch revisions")
          /\ exists k r, startsWith k prefix = true /\ store w !! k = Some r
                         /\ forall s, prop r "scheduled_date" <> VStr s)).
Proof.
  intros today prefix out. subst out. rewrite revisions_get_world. cbn [store writes].
  split; [reflexivity|]. split; [reflexivity|].
  pose proof (revisions_get_run uid w) as Hrun. cbv zeta in Hrun.
  rewrite kv_getByPrefix_under in Hrun. cbn [fst default from_option id] in Hrun.
  fold today prefix in Hrun. rewrite Hrun.
  destruct (dueRevisions today (under prefix (store w))) as [due|] eqn:Hd.
  - left. exists due. split; [reflexivity|]. intros r.
    rewrite (dueRevisions_Some _ _ _ Hd r), under_elem. split.
    + intros [(k & Hk & Hst) Hr]. eauto.
    + intros (k & Hk & Hst & Hr). eauto.
  - right. split; [reflexivity|].
    apply dueRevisions_None in Hd as (r & Hin & Hr). apply under_elem in Hin as (k & Hk & Hst).
    exists k, r. split; [exact Hk|]. split; [exact Hst|].
    intros s Hs. unfold isDue in Hr. rewrite Hs in Hr. discriminate Hr.
Qed.

(** X2. [GET /dashboard] and [GET /revisions] agree in the same world:
    either [GET /revisions] answers 200 and the dashboard answers 200 with
    [upcomingRevisionsCount] the number of revisions that [GET /revisions]
    returns, or both answer 500. *)
Theorem dashboard_counts_due_revisions (uid : string) (w : world) :
  let dash := (route_dashboard (Some uid) w).1 in
  let revs := (revisions_get (Some uid) w).1 in
  (exists due,
      revs = Json 200 (assign ∅ [("revisions", VArr (map VObj due))])
      /\ status_of dash = 200
      /\ field_of dash "upcomingRevisionsCount" = count due)
  \/ (revs = Json 500 (error "Failed to fetch revisions")
      /\ dash = Json 500 (error "Failed to fetch dashboard")).
Proof.
  intros dash revs. subst dash revs.
  pose proof (revisions_get_run uid w) as Hrun. cbv zeta in Hrun.
  rewrite kv_getByPrefix_under in Hrun. cbn [fst default from_option id] in Hrun.
  rewrite Hrun, route_dashboard_run. cbn [fst].
  destruct (dueRevisions _ _) as [due|].
  - left. exists due. split; [reflexivity|]. split; [reflexivity|].
    unfold field_of, prop, assign. cbn [fold_left fst snd].
    rewrite lookup_insert_ne by discriminate. rewrite lookup_insert_ne by discriminate.
    rewrite lookup_insert_eq. reflexivity.
  - right. split; reflexivity.
Qed.

Lemma under_insert_other prefix k (v : obj) (st : gmap string obj) :
  startsWith k prefix = false -> under prefix (<[k := v]> st) ≡ₚ under prefix st.
Proof.
  intros Hk. rewrite under_insert, Hk. destruct (st !! k) as [old|] eqn:Hst.
  - rewrite (under_lookup prefix k old st Hst), Hk. reflexivity.
  - rewrite under_fresh by exact Hst. reflexivity.
Qed.

(** Writing a key adds a record under a prefix only when the key starts
    with the prefix and held nothing. *)
Lemma under_insert_length prefix k (v : obj) (st : gmap string obj) :
  length (under prefix (<[k := v]> st))
  = (length (under prefix st)
     + if startsWith k prefix then match st !! k with None => 1 | Some _ => 0 end else 0)%nat.
Proof.
  rewrite under_insert. destruct (st !! k) as [old|] eqn:Hst.
  - rewrite (under_lookup prefix k old st Hst).
    destruct (startsWith k prefix); cbn [app length]; lia.
  - rewrite under_fresh by exact Hst.
    destruct (startsWith k prefix); cbn [app length]; lia.
Qed.

Lemma startsWith_app p x : startsWith (p +:+ x) p = true.
Proof.
  unfold startsWith. induction p as [|c p IH]; [destruct x; reflexivity|].
  rewrite append_cons. cbn [String.prefix]. destruct (ascii_dec c c); [exact IH|contradiction].
Qed.

Lemma progressId_not_revision {rt : Runtime} uid uid' revision :
  startsWith (progressId uid revision) ("revision:" +:+ uid') = false.
Proof. reflexivity. Qed.

Lemma progressId_not_weak {rt : Runtime} uid uid' revision :
  startsWith (progressId uid revision) ("weak:" +:+ uid') = false.
Proof. reflexivity. Qed.

(** X3. Completing an owned revision that is stored under a key of the
    user's revisions raises the number of the user's completed revisions
    by one when the record was not completed before, and leaves it as it
    was otherwise. The dashboard read afterwards reports as [streak] the
    minimum of that number and 7, unless it answers 500. *)
Theorem completing_raises_streak {rt : Runtime} (uid revisionId : string) (recallScore : jsval) (w : world) (revision : obj) :
  store w !! revisionId = Some revision ->
  strict_eq (prop revision "user_id") (VStr uid) = true ->
  startsWith revisionId ("revision:" +:+ uid) = true ->
  let w' := (revisions_complete (Some uid) revisionId recallScore w).2 in
  let dash := (route_dashboard (Some uid) w').1 in
  completedCount uid (store w')
  = (completedCount uid (store w) + if truthy (prop revision "completed") then 0 else 1)%nat
  /\ (status_of dash = 500
      \/ field_of dash "streak"
         = VNum (of_Z (Z.min (Z.of_nat (completedCount uid (store w'))) 7))).
Proof.
  intros Hget Hown Hpre w' dash. subst dash w'.
  rewrite (revisions_complete_run _ _ _ _ _ Hget Hown). cbn [snd]. split.
  - cbn [store]. unfold completedCount, completedRevisions.
    rewrite (filter_length_Permutation _ _ _
               (under_insert_other _ _ _ _ (progressId_not_revision uid uid revision))).
    rewrite (filter_length_Permutation _ _ _ (under_insert _ _ _ _)).
    rewrite (filter_length_Permutation _ _ _ (under_lookup _ _ _ _ Hget)).
    rewrite Hpre. cbn [app List.filter].
    assert (prop (completed revision recallScore (clock w (reads w))) "completed" = VBool true) as ->.
    { unfold prop. rewrite completed_lookup. reflexivity. }
    cbn [truthy]. destruct (truthy (prop revision "completed")); cbn [length]; lia.
  - rewrite route_dashboard_run. cbn [fst store].
    destruct (dueRevisions _ _); [right|left; reflexivity].
    unfold field_of, prop, assign. cbn [fold_left fst snd].
    rewrite lookup_insert_eq. reflexivity.
Qed.

Lemma completing_raises_streak_witness :
  (store Scenario.w1 !! Scenario.day1Key = Some (Scenario.revision 1)
   /\ strict_eq (prop (Scenario.revision 1) "user_id") (VStr Scenario.uid) = true
   /\ startsWith Scenario.day1Key ("revision:" +:+ Scenario.uid) = true)
  /\ completedCount Scenario.uid
       (store (revisions_complete (rt := Scenario.utc) (Some Scenario.uid) Scenario.day1Key
                 (VNum (of_Z 6)) Scenario.w1).2)
     = 1%nat.
Proof.
  assert (store Scenario.w1 !! Scenario.day1Key = Some (Scenario.revision 1)) as H1
    by (vm_compute; reflexivity).
  assert (strict_eq (prop (Scenario.revision 1) "user_id") (VStr Scenario.uid) = true) as H2
    by reflexivity.
  assert (startsWith Scenario.day1Key ("revision:" +:+ Scenario.uid) = true) as H3
    by reflexivity.
  split; [tauto|].
  rewrite (proj1 (completing_raises_streak (rt := Scenario.utc) Scenario.uid Scenario.day1Key
                    (VNum (of_Z 6)) Scenario.w1 _ H1 H2 H3)).
  vm_compute. reflexivity.
Defined.

(** ** Grading a submission *)

(** X4. Scheduling and the due filter together: the revision scheduled
    [day] calendar days after [now] is due at the time [t] exactly when
    the UTC day of [t] is not before the UTC day of the scheduled time,
    the time value at which the local clock shows the time of day of
    [now], [day] local dates later; the times of day play no part. When
    the offset of the zone at that local time is the one at [now], that
    day is the day of [now] plus [day] (times in four-digit years). *)
Theorem revision_due_after_days {rt : Runtime} (uid : string) (diagnostic : obj) (now day t : Z) :
  fourDigitYear (addCalendarDays now day) ->
  fourDigitYear t ->
  let r := (scheduleRevision uid diagnostic now day).2 in
  isDue (split0 "T" (toISOString t)) r = Some (Day (addCalendarDays now day) <=? Day t)
  /\ (LocalTZA (LocalTime now + day * msPerDay) false = LocalTZA now true ->
      isDue (split0 "T" (toISOString t)) r = Some (Day now + day <=? Day t)).
Proof.
  intros Hs Ht r. subst r.
  assert (isDue (split0 "T" (toISOString t)) (scheduleRevision uid diagnostic now day).2
          = Some (Day (addCalendarDays now day) <=? Day t)) as Hdue.
  { unfold isDue, prop. rewrite !scheduleRevision_lookup. cbn [decide].
    rewrite decide_False by discriminate. rewrite decide_True by reflexivity.
    rewrite decide_True by reflexivity.
    cbn [default from_option id truthy negb].
    rewrite (str_le_date_part _ _ Hs Ht), andb_true_r. reflexivity. }
  split; [exact Hdue|]. intros Hz. rewrite Hdue.
  replace (addCalendarDays now day) with (now + day * msPerDay);
    [rewrite Day_add_days; reflexivity|].
  unfold addCalendarDays, UTC. rewrite Hz. unfold LocalTime. lia.
Qed.

Lemma revision_due_after_days_witness :
  (fourDigitYear (addCalendarDays (rt := Autumn.newYork) Autumn.noon 1)
   /\ fourDigitYear (Autumn.noon + 1 * msPerDay))
  /\ isDue (split0 "T" (toISOString (Autumn.noon + 1 * msPerDay)))
        (scheduleRevision (rt := Autumn.newYork) Scenario.uid
           (Scenario.diagnostic Scenario.first) Autumn.noon 1).2
     = Some true.
Proof.
  assert (fourDigitYear (addCalendarDays (rt := Autumn.newYork) Autumn.noon 1)) as H1
    by (vm_compute; split; discriminate).
  assert (fourDigitYear (Autumn.noon + 1 * msPerDay)) as H2
    by (vm_compute; split; discriminate).
  split; [tauto|].
  rewrite (proj1 (revision_due_after_days (rt := Autumn.newYork) Scenario.uid
                    (Scenario.diagnostic Scenario.first) Autumn.noon 1
                    (Autumn.noon + 1 * msPerDay) H1 H2)).
  vm_compute. reflexivity.
Defined.

(** The loop over the questions counts at most one per question, and
    throws exactly when there is a question and either the answers or
    one of the questions is [undefined] or [null]. *)
Lemma countCorrect_bounds answers : forall questions index correct correct',
  countCorrect questions answers index correct = Some correct' ->
  correct <= correct' <= correct + Z.of_nat (length questions).
Proof.
  induction questions as [|q qs IH]; cbn [countCorrect length]; intros i c c' H.
  - injection H as <-. lia.
  - destruct (JS.index answers i) as [a|]; [|discriminate H].
    destruct (member q "correctAnswer") as [x|]; [|discriminate H].
    apply IH in H. destruct (strict_eq a x); lia.
Qed.

Lemma index_None v i : JS.index v i = None <-> nullish v = true.
Proof. destruct v; cbn; split; (discriminate || reflexivity). Qed.

Lemma member_None v k : member v k = None <-> nullish v = true.
Proof. destruct v; cbn; split; (discriminate || reflexivity). Qed.

Lemma countCorrect_None answers : forall questions index correct,
  countCorrect questions answers index correct = None
  <-> questions <> [] /\ (nullish answers = true \/ exists q, In q questions /\ nullish q = true).
Proof.
  induction questions as [|q qs IH]; cbn [countCorrect]; intros i c.
  - split; [discriminate|]. intros [H _]. contradiction.
  - destruct (JS.index answers i) as [a|] eqn:Ha.
    + assert (nullish answers = false) as Hna.
      { destruct (nullish answers) eqn:E; [|reflexivity].
        apply (proj2 (index_None answers i)) in E. congruence. }
      destruct (member q "correctAnswer") as [x|] eqn:Hq.
      * rewrite IH. assert (nullish q = false) as Hnq by (destruct q; (discriminate || reflexivity)).
        split.
        -- intros [_ [H|(q' & Hin & Hq')]]; [congruence|].
           split; [discriminate|]. right. exists q'. cbn. auto.
        -- intros [_ [H|(q' & [<-|Hin] & Hq')]]; try congruence.
           split; [intros ->; contradiction|]. right. eauto.
      * split; [|reflexivity]. intros _. split; [discriminate|]. right. exists q.
        split; [left; reflexivity|]. apply (member_None q "correctAnswer"), Hq.
    + split; [|reflexivity]. intros _. split; [discriminate|]. left.
      apply (index_None answers i), Ha.
Qed.

(** X5. The four outcomes of [POST /diagnostic/submit]. Without a user:
    401. With nothing stored under the diagnostic id, or a record of
    another user: 404. With a record of the user whose [questions] is not
    an array, or with at least one question and answers or a question that
    are [undefined] or [null]: 500. Otherwise 200, and the writes are those
    of a graded submission. The three failures leave the world as it was:
    nothing is written and the clock is not read. *)
Theorem submit_outcomes {rt : Runtime} (user : option string) (diagnosticId : string) (answers timeTaken confidence : jsval) (w : world) :
  let out := diagnostic_submit user diagnosticId answers timeTaken confidence w in
  (user = None /\ out = (Json 401 (error "Unauthorized"), w))
  \/ (exists uid,
         user = Some uid
         /\ (store w !! diagnosticId = None
             \/ exists diagnostic, store w !! diagnosticId = Some diagnostic
                                   /\ strict_eq (prop diagnostic "user_id") (VStr uid) = false)
         /\ out = (Json 404 (error "Diagnostic not found"), w))
  \/ (exists uid diagnostic,
         user = Some uid /\ store w !! diagnosticId = Some diagnostic
         /\ strict_eq (prop diagnostic "user_id") (VStr uid) = true
         /\ ((forall l, prop diagnostic "questions" <> VArr l)
             \/ exists l, prop diagnostic "questions" = VArr l /\ l <> []
                          /\ (nullish answers = true
                              \/ exists q, In q l /\ nullish q = true))
         /\ out = (Json 500 (error "Failed to submit diagnostic"), w))
  \/ (exists uid diagnostic questions correct,
         user = Some uid /\ store w !! diagnosticId = Some diagnostic
         /\ strict_eq (prop diagnostic "user_id") (VStr uid) = true
         /\ prop diagnostic "questions" = VArr questions
         /\ countCorrect questions answers 0 0 = Some correct
         /\ status_of out.1 = 200
         /\ new_writes w out.2
            = submit_writes uid diagnosticId timeTaken confidence diagnostic questions correct w).
Proof.
  intros out. subst out.
  destruct user as [uid|]; [|left; split; reflexivity]. right.
  destruct (store w !! diagnosticId) as [diagnostic|] eqn:Hget.
  2:{ left. exists uid. split; [reflexivity|]. split; [left; reflexivity|].
      unfold diagnostic_submit, try_catch, submitDiagnostic, bind, kv_get.
      rewrite Hget. reflexivity. }
  destruct (strict_eq (prop diagnostic "user_id") (VStr uid)) eqn:Hown.
  2:{ left. exists uid. split; [reflexivity|]. split; [right; eauto|].
      unfold diagnostic_submit, try_catch, submitDiagnostic, bind, kv_get.
      rewrite Hget, Hown. reflexivity. }
  right.
  destruct (match prop diagnostic "questions" with VArr l => Some l | _ => None end)
    as [questions|] eqn:Hq.
  - assert (prop diagnostic "questions" = VArr questions) as Hq'
      by (destruct (prop diagnostic "questions"); try discriminate Hq; congruence).
    destruct (countCorrect questions answers 0 0) as [correct|] eqn:Hc.
    + right. exists uid, diagnostic, questions, correct.
      rewrite (diagnostic_submit_run _ _ _ _ _ _ _ _ _ Hget Hown Hq' Hc). cbn [fst snd].
      rewrite new_writes_app. auto 10.
    + left. exists uid, diagnostic. do 3 (split; [first [reflexivity | assumption]|]). split.
      * right. exists questions. apply countCorrect_None in Hc as [Hne Hc]. auto.
      * unfold diagnostic_submit, try_catch, submitDiagnostic, bind, kv_get.
        rewrite Hget, Hown, Hq'. cbn [negb lift ret]. rewrite Hc. reflexivity.
  - left. exists uid, diagnostic. do 3 (split; [first [reflexivity | assumption]|]). split.
    + left. intros l Hl. rewrite Hl in Hq. discriminate Hq.
    + unfold diagnostic_submit, try_catch, submitDiagnostic, bind, kv_get.
      rewrite Hget, Hown. cbn [negb]. rewrite Hq. reflexivity.
Qed.

Lemma Qeq_bool_inject_Z_0 z : Qeq_bool (inject_Z z) 0 = (z =? 0).
Proof. unfold Qeq_bool, inject_Z. cbn [Qnum Qden]. rewrite Z.mul_1_r. reflexivity. Qed.

(** *** Rounding to the nearest double *)

(** The rounding on known doubles: a third, eleven twentieths, a tie in
    the subnormal range, the largest double and the overflow. *)
Example round64_third : round64 (1 # 3) = Fin (6004799503160661 # 18014398509481984).
Proof. vm_compute. reflexivity. Qed.

Example round64_eleven_twentieths :
  round64 (11 # 20) = Fin (2476979795053773 # 4503599627370496).
Proof. vm_compute. reflexivity. Qed.

Example round64_tie_to_even :
  round64 (inject_Z (2 ^ 53 + 1)) = Fin (inject_Z (2 ^ 53))
  /\ round64 (inject_Z (2 ^ 53 + 3)) = Fin (inject_Z (2 ^ 53 + 4))
  /\ round64 (1 # Z.to_pos (2 ^ 1075)) = Fin 0
  /\ round64 (3 # Z.to_pos (2 ^ 1076)) = Fin (1 # Z.to_pos (2 ^ 1074)).
Proof. repeat split; vm_compute; reflexivity. Qed.

Example round64_overflow :
  round64 (inject_Z (2 ^ 1024 - 2 ^ 970 - 1)) = Fin (inject_Z (2 ^ 1024 - 2 ^ 971))
  /\ round64 (inject_Z (2 ^ 1024 - 2 ^ 970)) = Inf true
  /\ round64 (- inject_Z (2 ^ 1024)) = Inf false.
Proof. repeat split; vm_compute; reflexivity. Qed.

Lemma round64_Qeq p q : (p == q)%Q -> round64 p = round64 q.
Proof. intros E. unfold round64. rewrite (Qred_complete _ _ E). reflexivity. Qed.

Lemma pow2_nonpos e : e <= 0 -> pow2 e = 1 # Z.to_pos (2 ^ (- e)).
Proof.
  intros He. unfold pow2. rewrite Z.max_r by lia. rewrite Z.max_l by lia. reflexivity.
Qed.

Lemma pow2_nonneg e : 0 <= e -> pow2 e = inject_Z (2 ^ e).
Proof.
  intros He. unfold pow2. rewrite Z.max_l by lia. rewrite Z.max_r by lia. reflexivity.
Qed.

Lemma roundEven_nonneg x : (0 <= x)%Q -> 0 <= roundEven x.
Proof.
  intros Hx. unfold roundEven. apply Qfloor_resp_le in Hx. change (Qfloor 0) with 0 in Hx.
  destruct (_ ?= _)%Q; [destruct (Z.even _)|..]; lia.
Qed.

Lemma roundEven_le x (M : Z) : (x <= inject_Z M)%Q -> roundEven x <= M.
Proof.
  intros Hx. unfold roundEven.
  pose proof (Qfloor_resp_le _ _ Hx) as Hf. rewrite Qfloor_Z in Hf.
  destruct (x - inject_Z (Qfloor x) ?= 1 # 2)%Q eqn:E; [destruct (Z.even _); [exact Hf|]|exact Hf|].
  - apply Qeq_alt in E.
    assert (inject_Z (Qfloor x) < inject_Z M)%Q as H; [|rewrite <- Zlt_Qlt in H; lia].
    eapply Qlt_le_trans; [|exact Hx].
    apply (Qplus_lt_l _ _ (- inject_Z (Qfloor x))). rewrite Qplus_opp_r.
    unfold Qminus in E. rewrite E. reflexivity.
  - apply Qgt_alt in E.
    assert (inject_Z (Qfloor x) < inject_Z M)%Q as H; [|rewrite <- Zlt_Qlt in H; lia].
    eapply Qlt_le_trans; [|exact Hx].
    apply (Qplus_lt_l _ _ (- inject_Z (Qfloor x))). rewrite Qplus_opp_r.
    eapply Qlt_trans; [|exact E]. reflexivity.
Qed.

Lemma Qabs_nonneg x : (0 <= x)%Q -> Qabs x = x.
Proof.
  destruct x as [n d]. unfold Qle, Qabs. cbn [Qnum Qden]. intros H.
  rewrite Z.abs_eq by lia. reflexivity.
Qed.

Lemma Qlog2_le_52 a : (0 < a)%Q -> (a < inject_Z (2 ^ 53))%Q -> Qlog2 a <= 52.
Proof.
  intros H0 H53. destruct a as [n d]. unfold Qlog2. cbn [Qnum Qden].
  assert (0 < n) as Hn by (unfold Qlt in H0; cbn in H0; lia).
  assert (n < 2 ^ 53 * Zpos d) as Hnd by (unfold Qlt in H53; cbn [Qnum Qden inject_Z] in H53; lia).
  assert (Z.log2 n <= Z.log2 (Zpos d) + 53) as Hk.
  { rewrite Z.add_comm, <- Z.log2_mul_pow2 by lia. apply Z.log2_le_mono. lia. }
  destruct (Qle_bool _ _) eqn:E; [|lia].
  apply Qle_bool_iff in E.
  destruct (Z.eq_dec (Z.log2 n - Z.log2 (Z.pos d)) 53) as [E53|]; [|lia].
  rewrite E53 in E. exfalso. apply (Qlt_not_le _ _ H53). exact E.
Qed.

Lemma round64_bounds (q : Q) (N : Z) :
  (0 <= q)%Q -> (q <= inject_Z N)%Q -> N < 2 ^ 53 ->
  exists s, round64 q = Fin s /\ (0 <= s)%Q /\ (s <= inject_Z N)%Q.
Proof.
  intros H0 HN H53. unfold round64.
  assert (Qred q == q)%Q as Hq by apply Qred_correct.
  set (q' := Qred q) in *. clearbody q'. rewrite <- Hq in H0, HN. clear q Hq.
  destruct (Qeq_bool q' 0) eqn:Ez.
  { exists 0%Q. split; [reflexivity|]. split; [apply Qle_refl|].
    apply Qeq_bool_iff in Ez. rewrite <- Ez. exact HN. }
  assert (0 < q')%Q as Hpos.
  { apply Qle_lteq in H0 as [H|H]; [exact H|]. apply Qeq_bool_neq in Ez. symmetry in H. contradiction. }
  rewrite (Qabs_nonneg q' H0).
  assert (Qsign_pos q' = true) as -> by (apply Qlt_bool_iff; exact Hpos).
  assert (Qlog2 q' <= 52) as Hlog.
  { apply Qlog2_le_52; [exact Hpos|]. eapply Qle_lt_trans; [exact HN|]. rewrite <- Zlt_Qlt. exact H53. }
  set (e := Z.max (Qlog2 q' - 52) (-1074)). assert (e <= 0) as He by lia. clearbody e.
  rewrite (pow2_nonpos e He). set (K := 2 ^ (- e)).
  assert (0 < K) as HK by (apply Z.pow_pos_nonneg; lia).
  set (m := roundEven (q' / (1 # Z.to_pos K))).
  assert (0 <= m) as Hm0.
  { apply roundEven_nonneg. apply Qle_shift_div_l; [reflexivity|]. rewrite Qmult_0_l. exact H0. }
  assert (m <= N * K) as HmN.
  { apply roundEven_le. apply Qle_shift_div_r; [reflexivity|].
    eapply Qle_trans; [exact HN|]. unfold Qle, Qmult, inject_Z. cbn [Qnum Qden].
    rewrite Pos.mul_1_l, Z2Pos.id by exact HK. lia. }
  assert (inject_Z m * (1 # Z.to_pos K) <= inject_Z N)%Q as Hv.
  { unfold Qle, Qmult, inject_Z. cbn [Qnum Qden]. rewrite Pos.mul_1_l, Z2Pos.id by exact HK. lia. }
  assert (0 <= inject_Z m * (1 # Z.to_pos K))%Q as Hv0.
  { unfold Qle, Qmult, inject_Z. cbn [Qnum Qden]. lia. }
  destruct (Qle_bool (pow2 1024) _) eqn:Eo.
  { exfalso. apply Qle_bool_iff in Eo.
    assert (pow2 1024 <= inject_Z N)%Q as H by (eapply Qle_trans; [exact Eo|exact Hv]).
    rewrite pow2_nonneg in H by lia. rewrite <- Zle_Qle in H.
    assert (2 ^ 53 < 2 ^ 1024) by (apply Z.pow_lt_mono_r; lia). lia. }
  eexists. split; [reflexivity|]. rewrite Qred_correct. split; assumption.
Qed.

(** *** The score *)

(** The score of a graded submission is a double between 0 and 100. *)
Lemma scoreOf_bounds correct (questions : list jsval) :
  questions <> [] ->
  0 <= correct <= Z.of_nat (length questions) ->
  exists s, scoreOf correct questions = Fin s /\ (0 <= s)%Q /\ (s <= 100)%Q.
Proof.
  intros Hne Hb. set (n := Z.of_nat (length questions)) in *.
  assert (0 < n) as Hn by (subst n; destruct questions; [contradiction|cbn [length]; lia]).
  unfold scoreOf. fold n. unfold num_div, of_Z.
  rewrite Qeq_bool_inject_Z_0. destruct (Z.eqb_spec n 0) as [E|_]; [lia|].
  assert (0 < inject_Z n)%Q as Hnq by (change 0%Q with (inject_Z 0); rewrite <- Zlt_Qlt; lia).
  destruct (round64_bounds (inject_Z correct / inject_Z n) 1) as (r & -> & Hr0 & Hr1).
  - apply Qle_shift_div_l; [exact Hnq|]. rewrite Qmult_0_l.
    change 0%Q with (inject_Z 0). rewrite <- Zle_Qle. lia.
  - apply Qle_shift_div_r; [exact Hnq|]. rewrite Qmult_1_l. rewrite <- Zle_Qle. lia.
  - reflexivity.
  - cbn [num_mul]. destruct (round64_bounds (r * inject_Z 100) 100) as (s & -> & Hs0 & Hs1).
    + apply Qmult_le_0_compat; [exact Hr0|discriminate].
    + change (inject_Z 100) with (1 * inject_Z 100)%Q at 2.
      apply Qmult_le_compat_r; [exact Hr1|discriminate].
    + reflexivity.
    + exists s. auto.
Qed.

(** No answer right scores 0 and every answer right scores 100: both
    quotients, 0 and 1, and both products are doubles. *)
Lemma scoreOf_none (questions : list jsval) :
  questions <> [] -> scoreOf 0 questions = of_Z 0.
Proof.
  intros Hne. unfold scoreOf, num_div, of_Z.
  rewrite Qeq_bool_inject_Z_0.
  destruct (Z.eqb_spec (Z.of_nat (length questions)) 0) as [E|Hn];
    [destruct questions; [contradiction|discriminate E]|].
  rewrite (round64_Qeq _ 0); [reflexivity|].
  unfold Qdiv. apply Qmult_0_l.
Qed.

Lemma scoreOf_all (questions : list jsval) :
  questions <> [] -> scoreOf (Z.of_nat (length questions)) questions = of_Z 100.
Proof.
  intros Hne. unfold scoreOf, num_div, of_Z.
  rewrite Qeq_bool_inject_Z_0.
  destruct (Z.eqb_spec (Z.of_nat (length questions)) 0) as [E|Hn];
    [destruct questions; [contradiction|discriminate E]|].
  rewrite (round64_Qeq _ 1); [reflexivity|].
  apply Qmult_inv_r. intros E. unfold Qeq, inject_Z in E. cbn [Qnum Qden] in E. lia.
Qed.

(** Eighths are doubles, and so are their products with 100. *)
Lemma scoreOf_eighths correct (questions : list jsval) :
  length questions = 8%nat ->
  0 <= correct <= 8 ->
  exists s, scoreOf correct questions = Fin s /\ (s == inject_Z correct * (25 # 2))%Q.
Proof.
  intros Hlen Hb. unfold scoreOf. rewrite Hlen.
  assert (correct = 0 \/ correct = 1 \/ correct = 2 \/ correct = 3 \/ correct = 4
          \/ correct = 5 \/ correct = 6 \/ correct = 7 \/ correct = 8) as Hcases by lia.
  repeat (destruct Hcases as [-> | Hcases];
          [eexists; split; [vm_compute; reflexivity | reflexivity]|]).
  subst correct. eexists. split; [vm_compute; reflexivity | reflexivity].
Qed.

(** X6. When the grading loop runs to its end, the number of correct
    answers lies between 0 and the number of questions. Without questions
    the score is NaN (0 / 0); otherwise it is a double between 0 and 100,
    the quotient correct / total and its product with 100 being rounded
    in turn: 0 when no answer is right, 100 when every answer is right,
    and for eleven right answers out of twenty 55.00000000000001, one
    unit in the last place above 55. *)
Theorem score_between_0_and_100 (questions : list jsval) (answers : jsval) (correct : Z) :
  countCorrect questions answers 0 0 = Some correct ->
  let total := Z.of_nat (length questions) in
  0 <= correct <= total
  /\ ((questions = [] /\ scoreOf correct questions = NaN)
      \/ (questions <> []
          /\ exists s, scoreOf correct questions = Fin s
                       /\ (0 <= s <= 100)%Q
                       /\ (correct = 0 -> (s == 0)%Q)
                       /\ (correct = total -> (s == 100)%Q))).
Proof.
  intros Hc total. pose proof (countCorrect_bounds _ _ _ _ _ Hc) as Hb.
  replace (0 + Z.of_nat (length questions)) with total in Hb by (subst total; lia).
  split; [exact Hb|].
  destruct questions as [|q qs].
  - left. split; [reflexivity|]. cbn [length] in *.
    assert (correct = 0) as -> by (subst total; lia). reflexivity.
  - right. split; [discriminate|].
    destruct (scoreOf_bounds correct (q :: qs)) as (s & Hs & Hs0 & Hs1);
      [discriminate|exact Hb|].
    exists s. split; [exact Hs|]. split; [split; assumption|]. split.
    + intros ->. rewrite scoreOf_none in Hs by discriminate. injection Hs as <-. reflexivity.
    + intros ->. subst total. rewrite scoreOf_all in Hs by discriminate.
      injection Hs as <-. reflexivity.
Qed.

Lemma score_between_0_and_100_witness :
  countCorrect Walkthrough.twenty Walkthrough.eleven 0 0 = Some 11
  /\ 0 <= 11 <= Z.of_nat (length Walkthrough.twenty)
  /\ scoreOf 11 Walkthrough.twenty = Fin (7740561859543041 # 140737488355328)
  /\ (7740561859543041 # 140737488355328 == 55 + (1 # 2 ^ 47))%Q.
Proof.
  assert (countCorrect Walkthrough.twenty Walkthrough.eleven 0 0 = Some 11) as H1
    by reflexivity.
  split; [exact H1|]. split.
  - exact (proj1 (score_between_0_and_100 Walkthrough.twenty Walkthrough.eleven 11 H1)).
  - split; [vm_compute; reflexivity | reflexivity].
Defined.

(** ** Mastery levels over several completions *)

Lemma js_ge_mono {rt : Runtime} v a b : b <= a -> js_ge v a = true -> js_ge v b = true.
Proof.
  unfold js_ge. intros Hab. destruct (ToNumber v) as [|[|]|q]; cbn; try (intros; congruence).
  unfold of_Z. cbn [num_ge num_lt]. rewrite !negb_true_iff.
  intros H. apply not_true_iff_false. apply not_true_iff_false in H.
  rewrite Qlt_bool_iff in *. intros Hq. apply H.
  eapply Qlt_le_trans; [exact Hq|]. rewrite <- Zle_Qle. exact Hab.
Qed.

(** Below the lowest threshold everywhere, the level is "weak". *)
Lemma lowScores_weak {rt : Runtime} p day score : lowScores p = true -> calculateMasteryLevel p day score = weak.
Proof.
  unfold lowScores, below60. rewrite !andb_true_iff, !negb_true_iff.
  intros [[H1 H3] H7]. unfold calculateMasteryLevel. rewrite H1.
  destruct (js_ge (js_or (prop p "day7_score") (VNum (of_Z 0))) 80) eqn:H80.
  - apply (js_ge_mono _ 80 60) in H80; [congruence|lia].
  - rewrite !andb_false_r. reflexivity.
Qed.

(** X7. The levels that each revision day can give, whatever is stored
    and whatever the new score: day 1 gives "weak" or "learning", day 3
    gives "weak" or "improving", day 7 gives "weak", "improving" or
    "mastered". *)
Theorem levels_by_day {rt : Runtime} (existingProgress : obj) (score : jsval) :
  let level day := calculateMasteryLevel existingProgress (VNum (of_Z day)) score in
  (level 1 = weak \/ level 1 = learning)
  /\ (level 3 = weak \/ level 3 = improving)
  /\ (level 7 = weak \/ level 7 = improving \/ level 7 = mastered).
Proof.
  intros level. subst level. cbv beta. unfold calculateMasteryLevel.
  change (strict_eq (VNum (of_Z 1)) (VNum (of_Z 7))) with false.
  change (strict_eq (VNum (of_Z 3)) (VNum (of_Z 7))) with false.
  change (strict_eq (VNum (of_Z 7)) (VNum (of_Z 7))) with true.
  change (strict_eq (VNum (of_Z 1)) (VNum (of_Z 1))) with true.
  change (strict_eq (VNum (of_Z 3)) (VNum (of_Z 1))) with false.
  change (strict_eq (VNum (of_Z 7)) (VNum (of_Z 1))) with false.
  change (js_ge (VNum (of_Z 1)) 3) with false.
  change (js_ge (VNum (of_Z 3)) 3) with true.
  change (js_ge (VNum (of_Z 7)) 3) with true.
  cbn [andb].
  repeat match goal with |- context [if ?b then _ else _] => destruct b end; tauto.
Qed.

(** X8. Scores below 60 never leave "weak". When the day scores stored
    for the topic are all below 60 (missing ones count as 0) and the
    recall score supplied is below 60, completing an owned revision
    writes a progress record with [mastery_level] "weak" whose day scores
    are again all below 60: the condition is kept from one completion to
    the next. *)
Theorem low_scores_stay_weak {rt : Runtime} (uid revisionId : string) (recallScore : jsval) (w : world) (revision : obj) :
  store w !! revisionId = Some revision ->
  strict_eq (prop revision "user_id") (VStr uid) = true ->
  below60 recallScore = true ->
  lowScores (default ∅ (store w !! progressId uid revision)) = true ->
  exists progress,
    store (revisions_complete (Some uid) revisionId recallScore w).2 !! progressId uid revision
    = Some progress
    /\ prop progress "mastery_level" = VStr "weak"
    /\ lowScores progress = true.
Proof.
  intros Hget Hown Hs Hlow.
  rewrite (revisions_complete_run _ _ _ _ _ Hget Hown). cbn [snd store].
  eexists. split; [apply lookup_insert_eq|].
  set (existing := default ∅ (<[revisionId := completed revision recallScore (clock w (reads w))]>
                                 (store w) !! progressId uid revision)).
  assert (forall k, k = "day1_score" \/ k = "day3_score" \/ k = "day7_score" ->
                    prop existing k = prop (default ∅ (store w !! progressId uid revision)) k)
    as Hex by (intros k Hk; apply (existing_day_scores _ _ _ _ _ _ Hget Hk)).
  assert (lowScores existing = true) as Hlow'.
  { unfold lowScores in *. rewrite !Hex by tauto. exact Hlow. }
  split.
  - rewrite mergeProgress_mastery, (lowScores_weak _ _ _ Hlow'). reflexivity.
  - assert (forall k, k = "day1_score" \/ k = "day3_score" \/ k = "day7_score" ->
                      below60 (prop existing k) = true ->
                      below60 (prop (mergeProgress existing uid revision recallScore
                                                   (clock w (S (reads w)))) k) = true) as Hk.
    { intros k Hk Hb. unfold prop at 1. rewrite mergeProgress_lookup.
      repeat case_decide; try (destruct Hk as [-> | [-> | ->]]; discriminate);
        cbn [default from_option id]; [exact Hs|exact Hb]. }
    unfold lowScores in *. apply andb_true_iff in Hlow' as [Hl H7].
    apply andb_true_iff in Hl as [H1 H3].
    rewrite !Hk by (tauto || assumption). reflexivity.
Qed.

Lemma low_scores_stay_weak_witness :
  (store Scenario.w1 !! Scenario.day1Key = Some (Scenario.revision 1)
   /\ strict_eq (prop (Scenario.revision 1) "user_id") (VStr Scenario.uid) = true
   /\ below60 (rt := Scenario.utc) (VNum (of_Z 6)) = true
   /\ lowScores (rt := Scenario.utc)
        (default ∅ (store Scenario.w1
                    !! progressId (rt := Scenario.utc) Scenario.uid (Scenario.revision 1)))
      = true)
  /\ exists progress,
       store (revisions_complete (rt := Scenario.utc) (Some Scenario.uid) Scenario.day1Key
                (VNum (of_Z 6)) Scenario.w1).2
       !! "progress:u1:Thermodynamics" = Some progress
       /\ prop progress "mastery_level" = VStr "weak".
Proof.
  assert (store Scenario.w1 !! Scenario.day1Key = Some (Scenario.revision 1)) as H1
    by (vm_compute; reflexivity).
  assert (strict_eq (prop (Scenario.revision 1) "user_id") (VStr Scenario.uid) = true) as H2
    by reflexivity.
  assert (below60 (rt := Scenario.utc) (VNum (of_Z 6)) = true) as H3 by reflexivity.
  assert (lowScores (rt := Scenario.utc)
            (default ∅ (store Scenario.w1
                        !! progressId (rt := Scenario.utc) Scenario.uid (Scenario.revision 1)))
          = true) as H4 by (vm_compute; reflexivity).
  split; [tauto|].
  destruct (low_scores_stay_weak (rt := Scenario.utc) Scenario.uid Scenario.day1Key
              (VNum (of_Z 6)) Scenario.w1 _ H1 H2 H3 H4) as (progress & Hst & Hlevel & _).
  exists progress. split; [exact Hst | exact Hlevel].
Defined.

(** ** The listing routes *)

Lemma append_assoc (a b c : string) : (a +:+ b) +:+ c = a +:+ (b +:+ c).
Proof. induction a as [|x a IH]; [reflexivity|]. rewrite !append_cons, IH. reflexivity. Qed.

Lemma startsWith_app_iff p a b : startsWith (p +:+ a) (p +:+ b) = startsWith a b.
Proof.
  unfold startsWith. induction p as [|c p IH]; [reflexivity|].
  rewrite !append_cons. cbn [String.prefix]. destruct (ascii_dec c c); [exact IH|contradiction].
Qed.

Lemma startsWith_same_length : forall a b rest,
  String.length a = String.length b -> a <> b -> startsWith (a +:+ rest) b = false.
Proof.
  unfold startsWith. induction a as [|x a IH]; intros [|y b] rest Hl Hab; try discriminate Hl.
  - contradiction.
  - rewrite append_cons. cbn [String.prefix]. destruct (ascii_dec y x) as [->|]; [|reflexivity].
    apply IH; [cbn in Hl; congruence|]. intros ->. contradiction.
Qed.

Lemma listing_run kind field msg uid w :
  try_catch (listing kind field (Some uid)) msg w
  = (Json 200 (assign ∅ [(field, VArr (map VObj (under (kind +:+ ":" +:+ uid) (store w))))]), w).
Proof. reflexivity. Qed.

Lemma listingRoutes_run route field kind uid w :
  In (route, field, kind) listingRoutes ->
  route (Some uid) w
  = (Json 200 (assign ∅ [(field, VArr (map VObj (under (kind +:+ ":" +:+ uid) (store w))))]), w).
Proof.
  cbn [In listingRoutes].
  intros [E|[E|[E|[E|[]]]]]; injection E as <- <- <-; reflexivity.
Qed.

Lemma map_VObj_inj : forall l l' : list obj, map VObj l = map VObj l' -> l = l'.
Proof.
  induction l as [|x l IH]; intros [|y l'] H; try discriminate H; [reflexivity|].
  cbn [map] in H. injection H as -> H. f_equal. apply IH, H.
Qed.

(** X9. Each of [GET /notes], [GET /topics], [GET /progress] and
    [GET /weak-concepts] answers 401 without a user and changes nothing;
    for a user it answers 200, changes nothing (it neither writes nor
    reads the clock), and lists exactly the records stored under a key
    that starts with [<kind>:<user id>]. *)
Theorem listing_routes_return (route : option string -> world -> response * world) (field kind uid : string) (w : world) :
  In (route, field, kind) listingRoutes ->
  (route None w = (Json 401 (error "Unauthorized"), w))
  /\ (route (Some uid) w).2 = w
  /\ exists found,
       (route (Some uid) w).1 = Json 200 (assign ∅ [(field, VArr (map VObj found))])
       /\ forall r, In r found
                    <-> exists k, startsWith k (kind +:+ ":" +:+ uid) = true
                                  /\ store w !! k = Some r.
Proof.
  intros Hin. split.
  - cbn [In listingRoutes] in Hin.
    destruct Hin as [E|[E|[E|[E|[]]]]]; injection E as <- <- <-; reflexivity.
  - rewrite (listingRoutes_run _ _ _ uid w Hin). cbn [fst snd]. split; [reflexivity|].
    eexists. split; [reflexivity|]. intros r. apply under_elem.
Qed.

Lemma listing_routes_return_witness :
  In (route_progress, "progress", "progress") listingRoutes
  /\ route_progress None Scenario.w0 = (Json 401 (error "Unauthorized"), Scenario.w0).
Proof.
  assert (In (route_progress, "progress", "progress") listingRoutes) as H1
    by (right; right; left; reflexivity).
  split; [exact H1|].
  exact (proj1 (listing_routes_return route_progress "progress" "progress" Scenario.uid
                  Scenario.w0 H1)).
Defined.

(** X10. Between users whose ids have the same length, a listing route
    never shows a user a record that is stored only under keys of the
    other user. *)
Theorem listing_hides_other_users (route : option string -> world -> response * world) (field kind uid other : string) (w : world) (found : list obj) (r : obj) :
  In (route, field, kind) listingRoutes ->
  String.length other = String.length uid ->
  other <> uid ->
  (forall k, store w !! k = Some r -> exists rest, k = kind +:+ ":" +:+ other +:+ rest) ->
  (route (Some uid) w).1 = Json 200 (assign ∅ [(field, VArr (map VObj found))]) ->
  ~ In r found.
Proof.
  intros Hin Hlen Hne Hkeys Hout Hr.
  rewrite (listingRoutes_run _ _ _ uid w Hin) in Hout. cbn [fst] in Hout.
  assert (found = under (kind +:+ ":" +:+ uid) (store w)) as ->.
  { apply (f_equal (fun r => field_of r field)) in Hout.
    unfold field_of, prop, assign in Hout. cbn [fold_left fst snd] in Hout.
    rewrite !lookup_insert_eq in Hout. cbn [default from_option id] in Hout.
    injection Hout as Hout. symmetry. apply map_VObj_inj, Hout. }
  apply under_elem in Hr as (k & Hp & Hk). destruct (Hkeys k Hk) as (rest & ->).
  rewrite !startsWith_app_iff in Hp.
  rewrite (startsWith_same_length _ _ _ Hlen Hne) in Hp. discriminate Hp.
Qed.

Lemma listing_hides_other_users_witness :
  (In (route_weak_concepts, "weakConcepts", "weak") listingRoutes
   /\ String.length "u1" = String.length "u2"
   /\ "u1" <> "u2"
   /\ (forall k, store Walkthrough.shelf !! k = Some Walkthrough.heat ->
                 exists rest, k = "weak" +:+ ":" +:+ "u1" +:+ rest)
   /\ (route_weak_concepts (Some "u2") Walkthrough.shelf).1
      = Json 200 (assign ∅ [("weakConcepts", VArr (map VObj []))]))
  /\ ~ In Walkthrough.heat [].
Proof.
  assert (In (route_weak_concepts, "weakConcepts", "weak") listingRoutes) as H1
    by (right; right; right; left; reflexivity).
  assert (String.length "u1" = String.length "u2") as H2 by reflexivity.
  assert ("u1" <> "u2") as H3 by discriminate.
  assert (forall k, store Walkthrough.shelf !! k = Some Walkthrough.heat ->
                    exists rest, k = "weak" +:+ ":" +:+ "u1" +:+ rest) as H4.
  { intros k Hk. unfold Walkthrough.shelf in Hk. cbn [store] in Hk.
    apply lookup_singleton_Some in Hk as [<- _]. exists ":Heat". reflexivity. }
  assert ((route_weak_concepts (Some "u2") Walkthrough.shelf).1
          = Json 200 (assign ∅ [("weakConcepts", VArr (map VObj []))])) as H5
    by (vm_compute; reflexivity).
  split; [tauto|].
  exact (listing_hides_other_users route_weak_concepts "weakConcepts" "weak" "u2" "u1"
           Walkthrough.shelf [] Walkthrough.heat H1 H2 H3 H4 H5).
Defined.

(** X11. The prefix of a listing route ends with the user id, without a
    closing colon: a record stored under [<kind>:<user id><rest>] is
    listed for every [rest], so also the records of a user whose id
    extends the id of the user who asks. *)
Theorem listing_shows_extended_ids (route : option string -> world -> response * world) (field kind uid rest : string) (w : world) (r : obj) :
  In (route, field, kind) listingRoutes ->
  store w !! (kind +:+ ":" +:+ uid +:+ rest) = Some r ->
  exists found,
    (route (Some uid) w).1 = Json 200 (assign ∅ [(field, VArr (map VObj found))])
    /\ In r found.
Proof.
  intros Hin Hk. rewrite (listingRoutes_run _ _ _ uid w Hin). cbn [fst].
  eexists. split; [reflexivity|]. apply under_elem. eexists. split; [|exact Hk].
  rewrite <- !append_assoc. apply startsWith_app.
Qed.

Lemma listing_shows_extended_ids_witness :
  (In (route_weak_concepts, "weakConcepts", "weak") listingRoutes
   /\ store Walkthrough.shelf !! ("weak" +:+ ":" +:+ "u" +:+ "1:Heat")
      = Some Walkthrough.heat)
  /\ exists found,
       (route_weak_concepts (Some "u") Walkthrough.shelf).1
       = Json 200 (assign ∅ [("weakConcepts", VArr (map VObj found))])
       /\ In Walkthrough.heat found.
Proof.
  assert (In (route_weak_concepts, "weakConcepts", "weak") listingRoutes) as H1
    by (right; right; right; left; reflexivity).
  assert (store Walkthrough.shelf !! ("weak" +:+ ":" +:+ "u" +:+ "1:Heat")
          = Some Walkthrough.heat) as H2 by (vm_compute; reflexivity).
  split; [tauto|].
  exact (listing_shows_extended_ids route_weak_concepts "weakConcepts" "weak" "u" "1:Heat"
           Walkthrough.shelf Walkthrough.heat H1 H2).
Defined.

(** ** What a request leaves for the listing routes *)

Lemma under_insert_In prefix k (v : obj) (st : gmap string obj) :
  startsWith k prefix = true -> In v (under prefix (<[k := v]> st)).
Proof. intros Hp. apply under_elem. exists k. split; [exact Hp|apply lookup_insert_eq]. Qed.

Lemma progressId_prefix {rt : Runtime} uid revision :
  startsWith (progressId uid revision) ("progress:" +:+ uid) = true.
Proof. unfold progressId. rewrite startsWith_app_iff. apply startsWith_app. Qed.

Lemma weakConceptId_prefix {rt : Runtime} uid diagnostic :
  startsWith (weakConceptId uid diagnostic) ("weak:" +:+ uid) = true.
Proof. unfold weakConceptId. rewrite startsWith_app_iff. apply startsWith_app. Qed.

Lemma route_progress_run uid w :
  route_progress (Some uid) w
  = (Json 200 (assign ∅ [("progress", VArr (map VObj (under ("progress:" +:+ uid) (store w))))]), w).
Proof. reflexivity. Qed.

Lemma route_weak_concepts_run uid w :
  route_weak_concepts (Some uid) w
  = (Json 200 (assign ∅ [("weakConcepts", VArr (map VObj (under ("weak:" +:+ uid) (store w))))]), w).
Proof. reflexivity. Qed.

(** X12. After the completion of an owned revision, the progress record
    of the response is the one stored under the progress key of the topic
    and is listed by [GET /progress]; that list is one longer than what
    was stored under the user's progress prefix when no progress record
    was stored for the topic, and as long otherwise. *)
Theorem completion_listed_in_progress {rt : Runtime} (uid revisionId : string) (recallScore : jsval) (w : world) (revision : obj) :
  store w !! revisionId = Some revision ->
  strict_eq (prop revision "user_id") (VStr uid) = true ->
  let w' := (revisions_complete (Some uid) revisionId recallScore w).2 in
  exists progress found,
    store w' !! progressId uid revision = Some progress
    /\ field_of (revisions_complete (Some uid) revisionId recallScore w).1 "progress"
       = VObj progress
    /\ (route_progress (Some uid) w').1 = Json 200 (assign ∅ [("progress", VArr (map VObj found))])
    /\ In progress found
    /\ length found
       = (length (under ("progress:" +:+ uid) (store w))
          + match store w !! progressId uid revision with None => 1 | Some _ => 0 end)%nat.
Proof.
  intros Hget Hown w'. subst w'.
  rewrite (revisions_complete_run _ _ _ _ _ Hget Hown). cbn [fst snd store].
  rewrite route_progress_run. cbn [fst store].
  do 2 eexists. split; [apply lookup_insert_eq|]. split; [reflexivity|].
  split; [reflexivity|]. split.
  - apply under_insert_In, progressId_prefix.
  - rewrite !under_insert_length, progressId_prefix, Hget.
    rewrite lookup_insert. case_decide as E.
    + rewrite <- E, Hget. destruct (startsWith revisionId ("progress:" +:+ uid)); cbn; lia.
    + destruct (startsWith revisionId ("progress:" +:+ uid)); cbn; lia.
Qed.

Lemma completion_listed_in_progress_witness :
  (store Scenario.w1 !! Scenario.day1Key = Some (Scenario.revision 1)
   /\ strict_eq (prop (Scenario.revision 1) "user_id") (VStr Scenario.uid) = true)
  /\ exists progress found,
       (route_progress (Some Scenario.uid)
          (revisions_complete (rt := Scenario.utc) (Some Scenario.uid) Scenario.day1Key
             (VNum (of_Z 6)) Scenario.w1).2).1
       = Json 200 (assign ∅ [("progress", VArr (map VObj found))])
       /\ In progress found
       /\ length found = 1%nat.
Proof.
  assert (store Scenario.w1 !! Scenario.day1Key = Some (Scenario.revision 1)) as H1
    by (vm_compute; reflexivity).
  assert (strict_eq (prop (Scenario.revision 1) "user_id") (VStr Scenario.uid) = true) as H2
    by reflexivity.
  split; [tauto|].
  destruct (completion_listed_in_progress (rt := Scenario.utc) Scenario.uid Scenario.day1Key
              (VNum (of_Z 6)) Scenario.w1 _ H1 H2)
    as (progress & found & _ & _ & Hout & Hin & Hlen).
  exists progress, found. split; [exact Hout|]. split; [exact Hin|].
  rewrite Hlen. vm_compute. reflexivity.
Defined.

Lemma apply_writes_cons k v l st :
  apply_writes ((k, v) :: l) st = apply_writes l (<[k := v]> st).
Proof. reflexivity. Qed.

Lemma under_insert_stored prefix k (v v' : obj) (st : gmap string obj) :
  st !! k = Some v' -> length (under prefix (<[k := v]> st)) = length (under prefix st).
Proof. intros H. rewrite under_insert_length, H. destruct (startsWith k prefix); lia. Qed.

Lemma under_insert_outside prefix k (v : obj) (st : gmap string obj) :
  startsWith k prefix = false -> length (under prefix (<[k := v]> st)) = length (under prefix st).
Proof. intros H. rewrite under_insert_length, H. lia. Qed.

(** X13. After a graded submission, [GET /weak-concepts] lists one record
    more than what was stored under the user's weak-concept prefix when
    the submission is weak and no weak concept was stored for the topic,
    and as many otherwise; the record of a weak submission is in the
    list. *)
Theorem submission_listed_in_weak_concepts {rt : Runtime} (uid diagnosticId : string) (answers timeTaken confidence : jsval) (w : world) (diagnostic : obj) (questions : list jsval) (correct : Z) :
  store w !! diagnosticId = Some diagnostic ->
  strict_eq (prop diagnostic "user_id") (VStr uid) = true ->
  prop diagnostic "questions" = VArr questions ->
  countCorrect questions answers 0 0 = Some correct ->
  let w' := (diagnostic_submit (Some uid) diagnosticId answers timeTaken confidence w).2 in
  let score := scoreOf correct questions in
  exists found,
    (route_weak_concepts (Some uid) w').1
    = Json 200 (assign ∅ [("weakConcepts", VArr (map VObj found))])
    /\ length found
       = (length (under ("weak:" +:+ uid) (store w))
          + if isWeak score confidence
            then match store w !! weakConceptId uid diagnostic with None => 1 | Some _ => 0 end
            else 0)%nat
    /\ (isWeak score confidence = true ->
        In (weakConcept uid diagnostic score confidence (clock w (S (S (reads w))))) found).
Proof.
  intros Hget Hown Hq Hc w' score. subst w' score.
  rewrite (diagnostic_submit_run _ _ _ _ _ _ _ _ _ Hget Hown Hq Hc). cbn [snd].
  rewrite route_weak_concepts_run. cbn [store fst].
  eexists. split; [reflexivity|].
  unfold submit_writes, grading_writes.
  set (result := resultRecord _ _ _ _ _ _ _).
  set (now := anchorTime _ _ _ _).
  set (prefix := "weak:" +:+ uid).
  rewrite !apply_writes_app. cbn [apply_writes fold_left app fst snd map revisionDays].
  set (st2 := <[resultId uid (clock w (S (reads w))) := result]> (<[diagnosticId := _]> (store w))).
  assert (length (under prefix st2) = length (under prefix (store w))) as H2.
  { subst st2. rewrite under_insert_outside by reflexivity.
    apply (under_insert_stored _ _ _ _ _ Hget). }
  assert (match st2 !! weakConceptId uid diagnostic with None => 1 | Some _ => 0 end
          = match store w !! weakConceptId uid diagnostic with None => 1 | Some _ => 0 end)%nat
    as H3.
  { subst st2. rewrite lookup_insert_ne by discriminate. rewrite lookup_insert.
    case_decide as E; [|reflexivity]. rewrite <- E, Hget. reflexivity. }
  set (st3 := apply_writes (if isWeak _ _ then _ else _) st2).
  assert (length (under prefix st3)
          = (length (under prefix (store w))
             + if isWeak (scoreOf correct questions) confidence
               then match store w !! weakConceptId uid diagnostic with None => 1 | Some _ => 0 end
               else 0)%nat
          /\ (isWeak (scoreOf correct questions) confidence = true ->
              st3 !! weakConceptId uid diagnostic
              = Some (weakConcept uid diagnostic (scoreOf correct questions) confidence
                                  (clock w (S (S (reads w))))))) as [H4 H5].
  { subst st3. destruct (isWeak (scoreOf correct questions) confidence).
    - cbn [apply_writes fold_left fst snd].
      rewrite under_insert_length, weakConceptId_prefix, H2. split.
      + rewrite H3. reflexivity.
      + intros _. apply lookup_insert_eq.
    - cbn [apply_writes fold_left]. split; [lia|discriminate]. }
  split.
  - rewrite !under_insert_outside by reflexivity. exact H4.
  - intros Hw. apply under_elem. exists (weakConceptId uid diagnostic).
    split; [apply weakConceptId_prefix|].
    rewrite !lookup_insert_ne by discriminate. apply H5, Hw.
Qed.

Lemma submission_listed_in_weak_concepts_witness :
  (store Scenario.w0 !! Scenario.first = Some (Scenario.diagnostic Scenario.first)
   /\ strict_eq (prop (Scenario.diagnostic Scenario.first) "user_id") (VStr Scenario.uid) = true
   /\ prop (Scenario.diagnostic Scenario.first) "questions" = VArr Scenario.questions
   /\ countCorrect Scenario.questions Scenario.answers 0 0 = Some 5)
  /\ exists found,
       (route_weak_concepts (Some Scenario.uid) Scenario.w1).1
       = Json 200 (assign ∅ [("weakConcepts", VArr (map VObj found))])
       /\ length found = 1%nat.
Proof.
  assert (store Scenario.w0 !! Scenario.first = Some (Scenario.diagnostic Scenario.first)) as H1
    by reflexivity.
  assert (strict_eq (prop (Scenario.diagnostic Scenario.first) "user_id") (VStr Scenario.uid)
          = true) as H2 by reflexivity.
  assert (prop (Scenario.diagnostic Scenario.first) "questions" = VArr Scenario.questions) as H3
    by reflexivity.
  assert (countCorrect Scenario.questions Scenario.answers 0 0 = Some 5) as H4 by reflexivity.
  split; [tauto|].
  destruct (submission_listed_in_weak_concepts (rt := Scenario.utc) Scenario.uid Scenario.first
              Scenario.answers Scenario.timeTaken Scenario.confidence Scenario.w0 _ _ 5
              H1 H2 H3 H4) as (found & Hout & Hlen & _).
  exists found. split; [exact Hout|]. rewrite Hlen. vm_compute. reflexivity.
Defined.

(** X14. Unless it answers 500, the dashboard reports as
    [weakConceptsCount] and [masteryProgress] the lengths of the lists
    that [GET /weak-concepts] and [GET /progress] return in the same
    world. *)
Theorem dashboard_counts_match_listings (uid : string) (w : world) :
  let dash := (route_dashboard (Some uid) w).1 in
  dash = Json 500 (error "Failed to fetch dashboard")
  \/ exists weakConcepts progress,
       (route_weak_concepts (Some uid) w).1
       = Json 200 (assign ∅ [("weakConcepts", VArr (map VObj weakConcepts))])
       /\ (route_progress (Some uid) w).1
          = Json 200 (assign ∅ [("progress", VArr (map VObj progress))])
       /\ field_of dash "weakConceptsCount" = count weakConcepts
       /\ field_of dash "masteryProgress" = count progress.
Proof.
  intros dash. subst dash.
  rewrite route_dashboard_run, route_weak_concepts_run, route_progress_run. cbn [fst].
  destruct (dueRevisions _ _); [right|left; reflexivity].
  do 2 eexists. split; [reflexivity|]. split; [reflexivity|]. split; reflexivity.
Qed.

(** ** Accounts: the header, the session and the profile *)

Lemma split1_app sep : forall scheme rest,
  lacks sep scheme = true ->
  split1 sep (scheme +:+ String sep rest) = Some (split0 sep rest).
Proof.
  induction scheme as [|c s IH]; intros rest Hs.
  - rewrite append_nil_l. cbn [split1]. rewrite Ascii.eqb_refl. reflexivity.
  - rewrite append_cons. cbn [split1 lacks] in *.
    apply andb_true_iff in Hs as [Hc Hs]. apply negb_true_iff in Hc. rewrite Hc. apply IH, Hs.
Qed.

Lemma split1_lacks sep : forall s, lacks sep s = true -> split1 sep s = None.
Proof.
  induction s as [|c s IH]; intros Hs; [reflexivity|]. cbn [split1 lacks] in *.
  apply andb_true_iff in Hs as [Hc Hs]. apply negb_true_iff in Hc. rewrite Hc. apply IH, Hs.
Qed.

Lemma split0_lacks sep : forall s, lacks sep s = true -> split0 sep s = s.
Proof.
  induction s as [|c s IH]; intros Hs; [reflexivity|]. cbn [split0 lacks] in *.
  apply andb_true_iff in Hs as [Hc Hs]. apply negb_true_iff in Hc. rewrite Hc, IH by exact Hs.
  reflexivity.
Qed.

(** X15. The access token is the second word of the [Authorization]
    header, the words being separated by single spaces: the first word is
    not compared with [Bearer], and what follows the second word is
    dropped. The user is the one whom the identity collaborator resolves
    from that token; an empty token, a header of one word and a missing
    header are refused without asking the collaborator. *)
Theorem authenticate_reads_second_word (getUser : string -> option account) (scheme token rest : string) :
  lacks " " scheme = true ->
  lacks " " token = true ->
  (authenticate getUser (Some (scheme +:+ " " +:+ token))
   = if String.eqb token "" then None else getUser token)
  /\ authenticate getUser (Some (scheme +:+ " " +:+ token +:+ " " +:+ rest))
     = authenticate getUser (Some (scheme +:+ " " +:+ token))
  /\ authenticate getUser (Some scheme) = None
  /\ authenticate getUser None = None.
Proof.
  intros Hs Ht. unfold authenticate, accessToken. cbn [mbind option_bind].
  change (" " +:+ token) with (String " " token).
  change (" " +:+ token +:+ " " +:+ rest) with (String " "%char (token +:+ String " "%char rest)).
  rewrite !split1_app by exact Hs. rewrite split0_app by exact Ht.
  rewrite split0_lacks by exact Ht. rewrite split1_lacks by exact Hs.
  repeat split; reflexivity.
Qed.

Lemma authenticate_reads_second_word_witness :
  (lacks " " "Bearer" = true /\ lacks " " "t1" = true)
  /\ authenticate Walkthrough.getUser Walkthrough.header = Some Walkthrough.alice.
Proof.
  assert (lacks " " "Bearer" = true) as H1 by reflexivity.
  assert (lacks " " "t1" = true) as H2 by reflexivity.
  split; [tauto|].
  refine (eq_trans (proj1 (authenticate_reads_second_word Walkthrough.getUser "Bearer" "t1"
                             "x" H1 H2)) _).
  reflexivity.
Defined.

Lemma assign_cons (o : obj) k v l : assign o ((k, v) :: l) = assign (<[k := v]> o) l.
Proof. reflexivity. Qed.

Lemma assign_nil (o : obj) : assign o [] = o.
Proof. reflexivity. Qed.

Lemma mergeProfile_lookup userProfile userClass exam_type name updated_at k :
  mergeProfile userProfile userClass exam_type name updated_at !! k
  = if decide (k = "updated_at") then Some (VStr (toISOString updated_at))
    else if decide (k = "name") then Some (orKeep name (prop userProfile "name"))
    else if decide (k = "exam_type") then Some (orKeep exam_type (prop userProfile "exam_type"))
    else if decide (k = "class") then Some (orKeep userClass (prop userProfile "class"))
    else userProfile !! k.
Proof.
  unfold mergeProfile, assign. cbn [fold_left fst snd].
  rewrite !lookup_insert. repeat case_decide; congruence.
Qed.

(** The conditional of the merge: only [undefined] keeps the old
    value. *)
Lemma orKeep_undefined v old :
  orKeep v old = match v with VUndef => old | _ => v end.
Proof. destruct v; reflexivity. Qed.

(** X16. [PUT /profile] for an authenticated user answers 200 and stores
    the profile of the answer under [user:<id>]. Each of [class],
    [exam_type] and [name] is the value of the body unless that is
    [undefined], in which case the value of the stored profile (or of
    [{ id, email }] when none is stored) is kept; every other value of
    the body, [null] included, replaces the old one. [updated_at] is the
    time of the request, and every other property of the profile is
    kept. *)
Theorem profile_update_merges (user : account) (userClass exam_type name : jsval) (w : world) :
  let old :=
    match store w !! ("user:" +:+ account_id user) with
    | Some stored => stored
    | None => assign ∅ [("id", VStr (account_id user)); ("email", account_email user)]
    end in
  let merged (sent : jsval) (k : string) : jsval :=
    match sent with
    | VUndef => prop old k
    | _ => sent
    end in
  let out := route_profile (Some user) userClass exam_type name w in
  exists updated,
    out.1 = Json 200 (assign ∅ [("user", VObj updated)])
    /\ store out.2 = <["user:" +:+ account_id user := updated]> (store w)
    /\ prop updated "class" = merged userClass "class"
    /\ prop updated "exam_type" = merged exam_type "exam_type"
    /\ prop updated "name" = merged name "name"
    /\ prop updated "updated_at" = VStr (toISOString (clock w (reads w)))
    /\ forall k, k <> "class" -> k <> "exam_type" -> k <> "name" -> k <> "updated_at" ->
                 updated !! k = old !! k.
Proof.
  intros old merged out. subst out merged.
  assert (old = profileOr (store w !! userKey (account_id user)) user) as Hold.
  { subst old. unfold profileOr, userKey. destruct (store w !! _); reflexivity. }
  exists (mergeProfile old userClass exam_type name (clock w (reads w))).
  split; [rewrite Hold; reflexivity|]. split; [rewrite Hold; reflexivity|].
  cbv beta. rewrite <- !orKeep_undefined.
  unfold prop at 1 3 5 7. rewrite !mergeProfile_lookup.
  repeat split; try reflexivity.
  intros k H1 H2 H3 H4. rewrite mergeProfile_lookup. repeat case_decide; congruence.
Qed.

(** An update that sends [class] and a [null] [exam_type], and no name:
    the name of the sign-up is kept and [null] is stored. *)
Example profile_update_sent_and_unsent :
  let w := (route_signup Walkthrough.createUser Walkthrough.email Walkthrough.password
              Walkthrough.name Scenario.w0).2 in
  let out := route_profile (Some Walkthrough.alice) (VStr "11") VNull VUndef w in
  map (fun k => store out.2 !! "user:u1" ≫= (fun updated => updated !! k))
      ["class"; "exam_type"; "name"]
  = [Some (VStr "11"); Some VNull; Some (VStr "Alice")].
Proof. vm_compute. reflexivity. Qed.

Lemma route_session_user getUser authorization user w :
  authenticate getUser authorization = Some user ->
  field_of (route_session getUser authorization w).1 "user"
  = VObj (profileOr (store w !! userKey (account_id user)) user).
Proof.
  unfold route_session, getSession, authenticate.
  destruct (accessToken authorization) as [token|]; [|discriminate].
  destruct (String.eqb token ""); [discriminate|]. intros ->. reflexivity.
Qed.

(** X17. [GET /session] always answers 200 and never changes the world.
    The answer is [{ session: null, user: null }] unless the header holds
    a token that the identity collaborator resolves; then [user] is the
    stored profile of that user, or [{ id, email }] when none is
    stored. *)
Theorem session_outcomes (getUser : string -> option account) (authorization : option string) (w : world) :
  let out := route_session getUser authorization w in
  out.2 = w
  /\ status_of out.1 = 200
  /\ match authenticate getUser authorization with
     | None => out.1 = noSession
     | Some user =>
         field_of out.1 "user"
         = VObj (default (bareProfile user) (store w !! userKey (account_id user)))
     end.
Proof.
  intros out. subst out. unfold route_session, getSession, authenticate.
  destruct (accessToken authorization) as [token|]; [|repeat split; reflexivity].
  destruct (String.eqb token ""); [repeat split; reflexivity|].
  destruct (getUser token) as [user|]; repeat split; reflexivity.
Qed.

Lemma route_signup_run createUser email password name session user w :
  truthy email = true ->
  truthy password = true ->
  createUser email password (js_or name (VStr "")) = AuthOk session user ->
  let profile := newProfile user name (clock w (reads w)) in
  route_signup createUser email password name w
  = (Json 200 (assign ∅ [("user", VObj profile)]),
     {| store := <[userKey (account_id user) := profile]> (store w);
        writes := writes w ++ [(userKey (account_id user), profile)];
        clock := clock w;
        reads := S (reads w) |}).
Proof.
  intros He Hp Hc. unfold route_signup, try_catch, signup. rewrite He, Hp, Hc. reflexivity.
Qed.

Lemma route_signin_run signInWithPassword email password session user w :
  signInWithPassword email password = AuthOk session user ->
  route_signin signInWithPassword email password w
  = (Json 200 (assign ∅ [("session", session);
                         ("user", VObj (profileOr (store w !! userKey (account_id user)) user))]),
     w).
Proof. intros Hs. unfold route_signin, try_catch, signin. rewrite Hs. reflexivity. Qed.

(** X18. Sign-up, then sign-in or [GET /session]. A successful sign-up
    answers the new profile: the id and the email of the created user,
    the name of the request or the empty string, [class] and [exam_type]
    null. Signing in afterwards, and asking for the session with a token
    of that user, both answer this profile as [user]. *)
Theorem signup_then_session (createUser : jsval -> jsval -> jsval -> authResult) (signInWithPassword : jsval -> jsval -> authResult) (getUser : string -> option account) (email password name : jsval) (session session' : jsval) (user : account) (authorization : option string) (w : world) :
  truthy email = true ->
  truthy password = true ->
  createUser email password (js_or name (VStr "")) = AuthOk session user ->
  signInWithPassword email password = AuthOk session' user ->
  authenticate getUser authorization = Some user ->
  let up := route_signup createUser email password name w in
  exists profile,
    up.1 = Json 200 (assign ∅ [("user", VObj profile)])
    /\ prop profile "id" = VStr (account_id user)
    /\ prop profile "email" = account_email user
    /\ prop profile "name" = js_or name (VStr "")
    /\ prop profile "class" = VNull
    /\ prop profile "exam_type" = VNull
    /\ field_of (route_signin signInWithPassword email password up.2).1 "user" = VObj profile
    /\ field_of (route_session getUser authorization up.2).1 "user" = VObj profile.
Proof.
  intros He Hp Hc Hs Ha up. subst up.
  rewrite (route_signup_run _ _ _ _ _ _ w He Hp Hc). cbn [fst snd].
  eexists. split; [reflexivity|].
  repeat split; try reflexivity.
  - rewrite (route_signin_run _ _ _ _ _ _ Hs). cbn [fst store field_of].
    unfold prop, assign. cbn [fold_left fst snd]. rewrite lookup_insert_eq.
    cbn [default from_option id]. unfold profileOr. rewrite lookup_insert_eq. reflexivity.
  - rewrite (route_session_user _ _ _ _ Ha). cbn [store]. unfold profileOr.
    rewrite lookup_insert_eq. reflexivity.
Qed.

Lemma signup_then_session_witness :
  (truthy Walkthrough.email = true
   /\ truthy Walkthrough.password = true
   /\ Walkthrough.createUser Walkthrough.email Walkthrough.password
        (js_or Walkthrough.name (VStr "")) = AuthOk VNull Walkthrough.alice
   /\ Walkthrough.signInWithPassword Walkthrough.email Walkthrough.password
      = AuthOk Walkthrough.token Walkthrough.alice
   /\ authenticate Walkthrough.getUser Walkthrough.header = Some Walkthrough.alice)
  /\ exists profile,
       (route_signup Walkthrough.createUser Walkthrough.email Walkthrough.password
          Walkthrough.name Scenario.w0).1
       = Json 200 (assign ∅ [("user", VObj profile)])
       /\ prop profile "name" = VStr "Alice".
Proof.
  assert (truthy Walkthrough.email = true) as H1 by reflexivity.
  assert (truthy Walkthrough.password = true) as H2 by reflexivity.
  assert (Walkthrough.createUser Walkthrough.email Walkthrough.password
            (js_or Walkthrough.name (VStr "")) = AuthOk VNull Walkthrough.alice) as H3
    by reflexivity.
  assert (Walkthrough.signInWithPassword Walkthrough.email Walkthrough.password
          = AuthOk Walkthrough.token Walkthrough.alice) as H4 by reflexivity.
  assert (authenticate Walkthrough.getUser Walkthrough.header = Some Walkthrough.alice) as H5
    by reflexivity.
  split; [tauto|].
  destruct (signup_then_session Walkthrough.createUser Walkthrough.signInWithPassword
              Walkthrough.getUser Walkthrough.email Walkthrough.password Walkthrough.name
              VNull Walkthrough.token Walkthrough.alice Walkthrough.header Scenario.w0
              H1 H2 H3 H4 H5) as (profile & Hout & _ & _ & Hname & _).
  exists profile. split; [exact Hout | exact Hname].
Defined.

(** ** Perfect answers *)

Lemma countCorrect_answerKey : forall questions pre correct,
  Forall (fun q => nullish q = false
                   /\ selfEqual (default VUndef (member q "correctAnswer")) = true) questions ->
  countCorrect questions (VArr (pre ++ answerKey questions)) (length pre) correct
  = Some (correct + Z.of_nat (length questions)).
Proof.
  induction questions as [|q qs IH]; intros pre c Hall; cbn [countCorrect length].
  - f_equal. lia.
  - apply Forall_cons in Hall as [[Hq Hself] Hall].
    cbn [JS.index answerKey map].
    rewrite list_lookup_middle by reflexivity. cbn [default from_option id].
    destruct (member q "correctAnswer") as [a|] eqn:Hm.
    2:{ apply member_None in Hm. congruence. }
    cbn [default from_option id] in Hself |- *. unfold selfEqual in Hself. rewrite Hself.
    specialize (IH (pre ++ [a]) (c + 1) Hall).
    rewrite <- app_assoc, length_app in IH. cbn [app length] in IH.
    rewrite Nat.add_1_r in IH. fold (answerKey qs). rewrite IH. f_equal. lia.
Qed.

(** X19. Answering every question with its [correctAnswer] counts every
    question and scores 100, provided that there is a question, that no
    question is [undefined] or [null], and that every [correctAnswer] is
    equal to itself under [===] (so neither NaN nor an array nor an
    object). *)
Theorem perfect_answers_score_100 (questions : list jsval) :
  questions <> [] ->
  Forall (fun q => nullish q = false
                   /\ selfEqual (default VUndef (member q "correctAnswer")) = true) questions ->
  exists s,
    countCorrect questions (VArr (answerKey questions)) 0 0
    = Some (Z.of_nat (length questions))
    /\ scoreOf (Z.of_nat (length questions)) questions = Fin s
    /\ (s == 100)%Q.
Proof.
  intros Hne Hall. exists (inject_Z 100). split; [|split].
  - apply (countCorrect_answerKey questions [] 0 Hall).
  - apply scoreOf_all, Hne.
  - reflexivity.
Qed.

Lemma perfect_answers_score_100_witness :
  (Scenario.questions <> []
   /\ Forall (fun q => nullish q = false
                       /\ selfEqual (default VUndef (member q "correctAnswer")) = true)
             Scenario.questions)
  /\ countCorrect Scenario.questions (VArr (answerKey Scenario.questions)) 0 0 = Some 8.
Proof.
  assert (Scenario.questions <> []) as H1 by discriminate.
  assert (Forall (fun q => nullish q = false
                           /\ selfEqual (default VUndef (member q "correctAnswer")) = true)
                 Scenario.questions) as H2 by (repeat constructor).
  split; [tauto|].
  destruct (perfect_answers_score_100 Scenario.questions H1 H2) as (s & Hc & _).
  exact Hc.
Defined.

(** ** Generated diagnostics *)

Lemma route_generate_run {rt : Runtime} random uid topic subject w :
  let diagnosticId := diagnosticKey uid (clock w (reads w)) in
  let diagnostic :=
    newDiagnostic diagnosticId uid topic subject (sampleQuestions random topic)
                  (clock w (S (reads w))) in
  route_generate random (Some uid) topic subject w
  = (Json 200 (assign ∅ [("diagnostic", VObj diagnostic)]),
     {| store := <[diagnosticId := diagnostic]> (store w);
        writes := writes w ++ [(diagnosticId, diagnostic)];
        clock := clock w;
        reads := S (S (reads w)) |}).
Proof. reflexivity. Qed.

Lemma newDiagnostic_lookup diagnosticId uid topic subject questions created_at k :
  newDiagnostic diagnosticId uid topic subject questions created_at !! k
  = if decide (k = "completed") then Some (VBool false)
    else if decide (k = "created_at") then Some (VStr (toISOString created_at))
    else if decide (k = "questions") then Some (VArr questions)
    else if decide (k = "subject") then Some subject
    else if decide (k = "topic") then Some topic
    else if decide (k = "user_id") then Some (VStr uid)
    else if decide (k = "id") then Some (VStr diagnosticId)
    else None.
Proof.
  unfold newDiagnostic, assign. cbn [fold_left fst snd].
  rewrite !lookup_insert. repeat case_decide; try congruence. apply lookup_empty.
Qed.

Lemma Qfloor_random (r : Q) : (0 <= r)%Q -> (r < 1)%Q -> 0 <= Qfloor (r * 4) <= 3.
Proof.
  intros H0 H1. split.
  - change 0 with (Qfloor 0). apply Qfloor_resp_le.
    change 0%Q with (0 * 4)%Q. apply Qmult_le_compat_r; [exact H0|discriminate].
  - assert (Qfloor (r * 4) < 4); [|lia]. rewrite Zlt_Qlt.
    eapply Qle_lt_trans; [apply Qfloor_le|].
    change (inject_Z 4) with (1 * 4)%Q. apply Qmult_lt_compat_r; [reflexivity|exact H1].
Qed.

(** X20. [POST /diagnostic/generate] for an authenticated user answers
    200 and stores the diagnostic of the answer under
    [diagnostic:<user id>:<time>]. The diagnostic carries that key as
    [id], the user, the topic and the subject of the request,
    [completed = false] and eight questions; the question at index [i]
    has the id [q<i+1>] and, for values of [Math.random()] in [0, 1), a
    [correctAnswer] that is an integer from 0 to 3. *)
Theorem generated_diagnostic_shape {rt : Runtime} (random : nat -> Q) (uid : string) (topic subject : jsval) (w : world) :
  (forall i, (0 <= random i)%Q /\ (random i < 1)%Q) ->
  let out := route_generate random (Some uid) topic subject w in
  let diagnosticId := diagnosticKey uid (clock w (reads w)) in
  exists diagnostic questions,
    out.1 = Json 200 (assign ∅ [("diagnostic", VObj diagnostic)])
    /\ store out.2 = <[diagnosticId := diagnostic]> (store w)
    /\ prop diagnostic "id" = VStr diagnosticId
    /\ prop diagnostic "user_id" = VStr uid
    /\ prop diagnostic "topic" = topic
    /\ prop diagnostic "subject" = subject
    /\ prop diagnostic "completed" = VBool false
    /\ prop diagnostic "questions" = VArr questions
    /\ length questions = 8%nat
    /\ forall i, (i < 8)%nat ->
         exists q answer,
           questions !! i = Some (VObj q)
           /\ prop q "id" = VStr ("q" +:+ pretty (Z.of_nat i + 1))
           /\ prop q "correctAnswer" = VNum (of_Z answer)
           /\ 0 <= answer <= 3.
Proof.
  intros Hr out diagnosticId. subst out diagnosticId. rewrite route_generate_run. cbn [fst snd store].
  do 2 eexists. split; [reflexivity|]. split; [reflexivity|].
  unfold prop. rewrite !newDiagnostic_lookup. cbn [decide].
  repeat (split; [reflexivity|]).
  intros i Hi. destruct (Hr i) as [H0 H1].
  do 8 (destruct i as [|i];
        [do 2 eexists; split; [reflexivity|]; split; [reflexivity|]; split; [reflexivity|];
         apply Qfloor_random; assumption|]).
  lia.
Qed.

Lemma generated_diagnostic_shape_witness :
  (forall i, (0 <= Walkthrough.random i)%Q /\ (Walkthrough.random i < 1)%Q)
  /\ exists diagnostic,
       (route_generate (rt := Scenario.utc) Walkthrough.random (Some Scenario.uid)
          (VStr "Heat") (VStr "Physics") Scenario.w0).1
       = Json 200 (assign ∅ [("diagnostic", VObj diagnostic)])
       /\ prop diagnostic "id" = VStr "diagnostic:u1:1762138800123".
Proof.
  assert (forall i, (0 <= Walkthrough.random i)%Q /\ (Walkthrough.random i < 1)%Q) as H1
    by (intros i; split; [discriminate | reflexivity]).
  split; [exact H1|].
  destruct (generated_diagnostic_shape (rt := Scenario.utc) Walkthrough.random Scenario.uid
              (VStr "Heat") (VStr "Physics") Scenario.w0 H1)
    as (diagnostic & questions & Hout & _ & Hid & _).
  exists diagnostic. split; [exact Hout|]. rewrite Hid. vm_compute. reflexivity.
Defined.

Lemma sampleQuestions_objects {rt : Runtime} random topic q :
  In q (sampleQuestions random topic) -> nullish q = false.
Proof.
  unfold sampleQuestions. rewrite in_map_iff. intros (i & <- & _). reflexivity.
Qed.

(** X21. Generate, then submit. A submission of the generated diagnostic
    by its owner, with answers that are neither [undefined] nor [null],
    is always graded: the answer is 200 with [total] 8, a number of
    correct answers from 0 to 8 and the score correct * 12.5. A
    submission by any other user answers 404 and changes nothing. *)
Theorem generated_diagnostic_is_graded {rt : Runtime} (random : nat -> Q) (uid other : string) (topic subject answers timeTaken confidence : jsval) (w : world) :
  nullish answers = false ->
  other <> uid ->
  let generated := (route_generate random (Some uid) topic subject w).2 in
  let diagnosticId := diagnosticKey uid (clock w (reads w)) in
  (exists correct result s,
      (diagnostic_submit (Some uid) diagnosticId answers timeTaken confidence generated).1
      = Json 200 (assign ∅ [("result", VObj result)])
      /\ 0 <= correct <= 8
      /\ prop result "total" = VNum (of_Z 8)
      /\ prop result "correct" = VNum (of_Z correct)
      /\ prop result "score" = VNum (Fin s)
      /\ (s == inject_Z correct * (25 # 2))%Q)
  /\ diagnostic_submit (Some other) diagnosticId answers timeTaken confidence generated
     = (Json 404 (error "Diagnostic not found"), generated).
Proof.
  intros Ha Hne generated diagnosticId. subst generated.
  rewrite route_generate_run. cbn [snd]. fold diagnosticId.
  set (diagnostic := newDiagnostic _ _ _ _ _ _).
  set (w' := Build_world _ _ _ _).
  assert (store w' !! diagnosticId = Some diagnostic) as Hget by apply lookup_insert_eq.
  assert (prop diagnostic "user_id" = VStr uid) as Huid
      by (unfold prop, diagnostic; rewrite newDiagnostic_lookup; reflexivity).
  assert (prop diagnostic "questions" = VArr (sampleQuestions random topic)) as Hq
      by (unfold prop, diagnostic; rewrite newDiagnostic_lookup; reflexivity).
  split.
  - assert (strict_eq (prop diagnostic "user_id") (VStr uid) = true) as Hown
        by (rewrite Huid; apply String.eqb_refl).
    destruct (countCorrect (sampleQuestions random topic) answers 0 0) as [correct|] eqn:Hc.
    2:{ apply countCorrect_None in Hc as [_ [Hc|(q & Hin & Hc)]]; [congruence|].
        apply sampleQuestions_objects in Hin. congruence. }
    pose proof (countCorrect_bounds _ _ _ _ _ Hc) as Hb. change (0 <= correct <= 8) in Hb.
    destruct (scoreOf_eighths correct (sampleQuestions random topic)) as (s & Hs & Heq);
      [reflexivity|exact Hb|].
    rewrite (diagnostic_submit_run _ _ _ _ _ _ _ _ _ Hget Hown Hq Hc). cbn [fst].
    exists correct. eexists. exists s. split; [reflexivity|]. split; [exact Hb|].
    split; [reflexivity|]. split; [reflexivity|]. split.
    + unfold prop, resultRecord, assign. cbn [fold_left fst snd].
      do 7 (rewrite lookup_insert_ne by discriminate). rewrite lookup_insert_eq.
      cbn [default from_option id]. rewrite Hs. reflexivity.
    + exact Heq.
  - unfold diagnostic_submit, try_catch, submitDiagnostic, bind, kv_get. rewrite Hget, Huid.
    cbn [strict_eq]. replace (String.eqb uid other) with false; [reflexivity|].
    symmetry. apply String.eqb_neq. congruence.
Qed.

Lemma generated_diagnostic_is_graded_witness :
  (nullish Scenario.answers = false /\ "u2" <> Scenario.uid)
  /\ status_of
       (diagnostic_submit (rt := Scenario.utc) (Some "u2")
          (diagnosticKey (rt := Scenario.utc) Scenario.uid
             (clock Scenario.w0 (reads Scenario.w0)))
          Scenario.answers Scenario.timeTaken Scenario.confidence
          (route_generate (rt := Scenario.utc) Walkthrough.random (Some Scenario.uid)
             (VStr "Heat") (VStr "Physics") Scenario.w0).2).1
     = 404.
Proof.
  assert (nullish Scenario.answers = false) as H1 by reflexivity.
  assert ("u2" <> Scenario.uid) as H2 by discriminate.
  split; [tauto|].
  rewrite (proj2 (generated_diagnostic_is_graded (rt := Scenario.utc) Walkthrough.random
                    Scenario.uid "u2" (VStr "Heat") (VStr "Physics") Scenario.answers
                    Scenario.timeTaken Scenario.confidence Scenario.w0 H1 H2)).
  reflexivity.
Defined.

(** ** Submitting again *)

Lemma submit_writes_keys {rt : Runtime} uid diagnosticId timeTaken confidence diagnostic questions correct w :
  startsWith diagnosticId "diagnostic:" = true ->
  exists first rest,
    submit_writes uid diagnosticId timeTaken confidence diagnostic questions correct w
    = (diagnosticId, first) :: rest
    /\ first = assign diagnostic
                      [("completed", VBool true);
                       ("result", VObj (resultRecord diagnosticId diagnostic questions correct
                                                     timeTaken confidence (clock w (reads w))))]
    /\ ~ In diagnosticId (map fst rest).
Proof.
  intros Hp. unfold submit_writes, grading_writes. do 2 eexists.
  split; [reflexivity|]. split; [reflexivity|].
  cbn [app map fst In]. rewrite List.map_app, List.in_app_iff. intros [E|[E|E]].
  - rewrite <- E in Hp. discriminate Hp.
  - destruct (isWeak _ _); cbn [map fst In] in E; [destruct E as [E|[]]|contradiction].
    rewrite <- E in Hp. discriminate Hp.
  - cbn [map revisionDays fst In] in E.
    destruct E as [E|[E|[E|[]]]]; rewrite <- E in Hp; discriminate Hp.
Qed.

(** X22. A diagnostic can be submitted again. A graded submission
    leaves under the diagnostic id the record with [completed = true] and
    the result, every other property kept; the route never reads
    [completed], so a second submission by the owner is graded like a
    first one, with the count and the score of its own answers. *)
Theorem resubmission_is_graded_again {rt : Runtime} (uid diagnosticId : string) (answers timeTaken confidence answers' timeTaken' confidence' : jsval) (w : world) (diagnostic : obj) (questions : list jsval) (correct correct' : Z) :
  store w !! diagnosticId = Some diagnostic ->
  strict_eq (prop diagnostic "user_id") (VStr uid) = true ->
  prop diagnostic "questions" = VArr questions ->
  countCorrect questions answers 0 0 = Some correct ->
  countCorrect questions answers' 0 0 = Some correct' ->
  startsWith diagnosticId "diagnostic:" = true ->
  let w' := (diagnostic_submit (Some uid) diagnosticId answers timeTaken confidence w).2 in
  exists submitted result,
    store w' !! diagnosticId = Some submitted
    /\ prop submitted "completed" = VBool true
    /\ (forall k, k <> "completed" -> k <> "result" -> submitted !! k = diagnostic !! k)
    /\ (diagnostic_submit (Some uid) diagnosticId answers' timeTaken' confidence' w').1
       = Json 200 (assign ∅ [("result", VObj result)])
    /\ prop result "correct" = VNum (of_Z correct')
    /\ prop result "score" = VNum (scoreOf correct' questions).
Proof.
  intros Hget Hown Hq Hc Hc' Hp w'. subst w'.
  rewrite (diagnostic_submit_run _ _ _ _ _ _ _ _ _ Hget Hown Hq Hc). cbn [snd].
  destruct (submit_writes_keys uid diagnosticId timeTaken confidence diagnostic questions
                               correct w Hp) as (first & rest & -> & Hfirst & Hrest).
  set (w' := Build_world _ _ _ _).
  assert (store w' !! diagnosticId = Some first) as Hget'.
  { subst w'. cbn [store]. rewrite apply_writes_cons, (apply_writes_frame _ _ _ Hrest).
    apply lookup_insert_eq. }
  assert (forall k, k <> "completed" -> k <> "result" -> first !! k = diagnostic !! k) as Hkeep.
  { intros k H1 H2. rewrite Hfirst. unfold assign. cbn [fold_left fst snd].
    rewrite !lookup_insert_ne by congruence. reflexivity. }
  assert (strict_eq (prop first "user_id") (VStr uid) = true) as Hown'
      by (unfold prop; rewrite Hkeep by discriminate; exact Hown).
  assert (prop first "questions" = VArr questions) as Hq'
      by (unfold prop; rewrite Hkeep by discriminate; exact Hq).
  rewrite (diagnostic_submit_run _ _ _ _ _ _ _ _ _ Hget' Hown' Hq' Hc'). cbn [fst].
  exists first. eexists. split; [exact Hget'|]. split.
  - rewrite Hfirst. unfold prop, assign. cbn [fold_left fst snd].
    rewrite lookup_insert_ne by discriminate. rewrite lookup_insert_eq. reflexivity.
  - split; [exact Hkeep|]. split; [reflexivity|]. split; reflexivity.
Qed.

Lemma resubmission_is_graded_again_witness :
  (store Scenario.w0 !! Scenario.first = Some (Scenario.diagnostic Scenario.first)
   /\ strict_eq (prop (Scenario.diagnostic Scenario.first) "user_id") (VStr Scenario.uid) = true
   /\ prop (Scenario.diagnostic Scenario.first) "questions" = VArr Scenario.questions
   /\ countCorrect Scenario.questions Scenario.answers 0 0 = Some 5
   /\ startsWith Scenario.first "diagnostic:" = true)
  /\ exists result,
       (diagnostic_submit (rt := Scenario.utc) (Some Scenario.uid) Scenario.first
          Scenario.answers Scenario.timeTaken Scenario.confidence Scenario.w1).1
       = Json 200 (assign ∅ [("result", VObj result)])
       /\ prop result "correct" = VNum (of_Z 5).
Proof.
  assert (store Scenario.w0 !! Scenario.first = Some (Scenario.diagnostic Scenario.first)) as H1
    by reflexivity.
  assert (strict_eq (prop (Scenario.diagnostic Scenario.first) "user_id") (VStr Scenario.uid)
          = true) as H2 by reflexivity.
  assert (prop (Scenario.diagnostic Scenario.first) "questions" = VArr Scenario.questions) as H3
    by reflexivity.
  assert (countCorrect Scenario.questions Scenario.answers 0 0 = Some 5) as H4 by reflexivity.
  assert (startsWith Scenario.first "diagnostic:" = true) as H5 by reflexivity.
  split; [tauto|].
  destruct (resubmission_is_graded_again (rt := Scenario.utc) Scenario.uid Scenario.first
              Scenario.answers Scenario.timeTaken Scenario.confidence
              Scenario.answers Scenario.timeTaken Scenario.confidence
              Scenario.w0 _ _ 5 5 H1 H2 H3 H4 H4 H5)
    as (submitted & result & _ & _ & _ & Hout & Hcorrect & _).
  exists result. split; [exact Hout | exact Hcorrect].
Defined.
